(** * SSO access-token lifecycle ([src/services/sso-auth.ts])

    A shallow embedding of the token lifecycle manager: the expiry-aware token
    cache kept in the extension's key/value storage, the login exchange with
    the SSO endpoint, the valid-token orchestrator and the configuration
    presence check.

    Conventions of the embedding.
    - JavaScript strings are byte strings ([string]); text outside ASCII is
      its UTF-8 encoding.
    - The numbers of this module ([Date.now()], [expires_in], HTTP status
      codes) are modelled as whole numbers, by [Z]; [NaN] is the [None] of
      [option Z].  JavaScript numbers are IEEE doubles: their arithmetic and
      their decimal text agree with [Z] on the safe integers (magnitude at
      most 2^53 - 1) and differ beyond them (rounding, and exponent form from
      10^21 on); a number that is not whole has no counterpart here.  The
      statements about reading back an expiry that was written therefore
      carry [safe_integer] hypotheses.
    - Every [async] function is a computation in the monad [M]: it reads the
      host (clock, network, [JSON.parse]), threads the world (storage
      contents, an event trace, the number of clock readings made so far) and
      either returns a value or throws an [Error].  One call runs to its end
      without interleaving.
    - [console.log] / [console.error] calls have no effect on results or on
      the store and are left out. *)

From Stdlib Require Import ZArith Ascii String List Lia.
From stdpp Require Import base gmap strings pretty.

Local Open Scope Z_scope.

(** ** Strings and numbers of the host language *)

Definition char_code (c : ascii) : Z := Z.of_N (N_of_ascii c).

(** The character [U+0022], written by code so that no literal needs it. *)
Definition DQUOTE : ascii := ascii_of_nat 34.
Definition LF : string := String (ascii_of_nat 10) "".

(** JavaScript truthiness of a [string | undefined] value: [undefined] and the
    empty string are falsy. *)
Definition truthy (v : option string) : bool :=
  match v with
  | Some (String _ _) => true
  | _ => false
  end.

(** [!!s] for a string [s]. *)
Definition nonempty (s : string) : bool := truthy (Some s).

(** [Number.prototype.toString] (radix 10) on a safe integer: an optional
    minus sign and the decimal digits, without leading zeros.  (Beyond the
    safe integers JavaScript prints the digits of the rounded double, in
    exponent form from 10^21 on; the model is not to be used there.) *)
Definition Number_toString (n : Z) : string := pretty n.

(** [StrWhiteSpaceChar]: ECMAScript [WhiteSpace] and [LineTerminator], in
    their UTF-8 encodings of one, two and three bytes. *)
Definition is_whitespace1 (a : ascii) : bool :=
  let n := char_code a in
  ((9 <=? n) && (n <=? 13)) || (n =? 32).

Definition is_whitespace2 (a b : ascii) : bool :=
  (char_code a =? 194) && (char_code b =? 160).

Definition is_whitespace3 (a b c : ascii) : bool :=
  let '(x, y, z) := (char_code a, char_code b, char_code c) in
  ((x =? 225) && (y =? 154) && (z =? 128))
  || ((x =? 226) && (y =? 128)
      && (((128 <=? z) && (z <=? 138)) || (z =? 168) || (z =? 169) || (z =? 175)))
  || ((x =? 226) && (y =? 129) && (z =? 159))
  || ((x =? 227) && (y =? 128) && (z =? 128))
  || ((x =? 239) && (y =? 187) && (z =? 191)).

Fixpoint trim_start (s : string) : string :=
  match s with
  | EmptyString => EmptyString
  | String a s1 =>
      if is_whitespace1 a then trim_start s1
      else match s1 with
           | EmptyString => s
           | String b s2 =>
               if is_whitespace2 a b then trim_start s2
               else match s2 with
                    | EmptyString => s
                    | String c s3 =>
                        if is_whitespace3 a b c then trim_start s3 else s
                    end
           end
  end.

(** The value of character [c] as a digit in radix [R], if it is one. *)
Definition digit_value (R : Z) (c : ascii) : option Z :=
  let n := char_code c in
  let d := if (48 <=? n) && (n <=? 57) then Some (n - 48)
           else if (97 <=? n) && (n <=? 122) then Some (n - 87)
           else if (65 <=? n) && (n <=? 90) then Some (n - 55)
           else None in
  match d with
  | Some v => if v <? R then Some v else None
  | None => None
  end.

(** The longest prefix of radix-[R] digits, read as a number; [acc] is the
    value of the digits read so far ([None]: no digit yet). *)
Fixpoint parse_digits (R : Z) (s : string) (acc : option Z) : option Z :=
  match s with
  | EmptyString => acc
  | String c s' =>
      match digit_value R c with
      | Some d => parse_digits R s' (Some (default 0 acc * R + d))
      | None => acc
      end
  end.

Definition strip_sign (s : string) : Z * string :=
  match s with
  | String c s' =>
      if Ascii.eqb c "-" then (-1, s')
      else if Ascii.eqb c "+" then (1, s')
      else (1, s)
  | EmptyString => (1, s)
  end.

Definition strip_hex_prefix (s : string) : Z * string :=
  match s with
  | String a (String b s') =>
      if Ascii.eqb a "0" && (Ascii.eqb b "x" || Ascii.eqb b "X") then (16, s')
      else (10, s)
  | _ => (10, s)
  end.

(** [parseInt(string)] with no radix argument.  [None] is [NaN]. *)
Definition parseInt (s : string) : option Z :=
  let '(sign, s1) := strip_sign (trim_start s) in
  let '(R, s2) := strip_hex_prefix s1 in
  match parse_digits R s2 None with
  | Some mathInt => Some (sign * mathInt)
  | None => None
  end.

(** [a >= b] on numbers, [b] possibly [NaN]: every comparison with [NaN] is
    false. *)
Definition number_ge (a : Z) (b : option Z) : bool :=
  match b with
  | Some y => y <=? a
  | None => false
  end.

(** ** JSON text of the request payload *)

Definition hex_digit (n : Z) : ascii :=
  ascii_of_N (Z.to_N (if n <? 10 then 48 + n else 87 + n)).

(** [QuoteJSONString] on one character: the two-character escapes, a
    [\u00xx] escape for the other control characters, the character itself
    otherwise. *)
Definition JSON_escape_char (c : ascii) : string :=
  let n := char_code c in
  let bs := String "\" in
  if n =? 8 then bs "b"
  else if n =? 9 then bs "t"
  else if n =? 10 then bs "n"
  else if n =? 12 then bs "f"
  else if n =? 13 then bs "r"
  else if n =? 34 then bs (String DQUOTE "")
  else if n =? 92 then bs "\"
  else if n <? 32 then
    bs (String "u" (String "0" (String "0"
      (String (hex_digit (n / 16)) (String (hex_digit (n mod 16)) "")))))
  else String c "".

Fixpoint JSON_escape (s : string) : string :=
  match s with
  | EmptyString => EmptyString
  | String c s' => JSON_escape_char c +:+ JSON_escape s'
  end.

Definition JSON_quote (s : string) : string :=
  String DQUOTE (JSON_escape s +:+ String DQUOTE "").

(** [JSON.stringify] (no indentation) on an object whose properties, in
    insertion order, all hold strings. *)
Fixpoint JSON_members (fields : list (string * string)) : string :=
  match fields with
  | [] => ""
  | (k, v) :: fs =>
      JSON_quote k +:+ ":" +:+ JSON_quote v
      +:+ match fs with [] => "" | _ => "," +:+ JSON_members fs end
  end.

Definition JSON_stringify (fields : list (string * string)) : string :=
  "{" +:+ JSON_members fields +:+ "}".

(** ** Data model *)

Module SSOCredentials.
Record t := mk {
  userid : string;
  password : string;
  otp : option string;
  otp_type : option string
}.
End SSOCredentials.

(** The token body.  [expires_in] is the lifetime in whole seconds; a body in
    which it is fractional, not a number or missing is outside this record. *)
Module SSOTokenResponse.
Record t := mk {
  access_token : string;
  scope : string;
  id_token : string;
  token_type : string;
  expires_in : Z;
  nonce : string
}.
End SSOTokenResponse.

Module GeminiAPIConfig.
Record t := mk {
  ssoUrl : string;
  geminiApiUrl : string;
  projectId : string;
  location : string;
  model : string
}.
End GeminiAPIConfig.

(** A thrown JavaScript [Error] object. *)
Module Error.
Record t := mk { name : string; message : string }.
End Error.

(** [new Error(message)]. *)
Definition new_Error (message : string) : Error.t := Error.mk "Error" message.

(** The outcome of a computation: a value, or a thrown error. *)
Inductive Result (A : Type) :=
| Ok (a : A)
| Throw (e : Error.t).
Arguments Ok {A} a.
Arguments Throw {A} e.

(** The second argument of [fetch]. *)
Module RequestInit.
Record t := mk {
  method : string;
  headers : list (string * string);
  body : string;
  mode : string;
  credentials : string;
  redirect : string
}.
End RequestInit.

(** What the code uses of a [Response]: the status line and the outcome of
    reading the body as text or as a JSON token response. *)
Module Response.
Record t := mk {
  status : Z;
  statusText : string;
  text : Result string;
  json : Result SSOTokenResponse.t
}.
(** [response.ok]: the status is in the range 200-299. *)
Definition ok (r : t) : bool := (200 <=? status r) && (status r <=? 299).
End Response.

(** ** The host and the world *)

(** The host environment of one run: the wall clock ([clock n] is what the
    [n]-th reading of [Date.now()] shows, in milliseconds), the network
    ([network url init] is the outcome of [fetch(url, init)]: a response, or
    a rejection) and [JSON.parse] at the two record types ([Throw]: the text
    is not JSON; [Ok None]: the text is [null]). *)
Record Host := {
  clock : nat -> Z;
  network : string -> RequestInit.t -> Result Response.t;
  JSON_parse_credentials : string -> Result (option SSOCredentials.t);
  JSON_parse_config : string -> Result (option GeminiAPIConfig.t)
}.

Inductive Event :=
| StorageGet (key : string)
| StorageSet (key value : string)
| StorageRemove (key : string)
| ClockRead
| NetworkFetch (url : string) (init : RequestInit.t)
| BodyRead.

(** The world: the contents of the key/value storage, the events so far in
    the order they happened, and the number of clock readings made. *)
Record World := {
  store : gmap string string;
  trace : list Event;
  ticks : nat
}.

Definition M (A : Type) : Type := Host -> World -> Result A * World.

Definition ret {A} (a : A) : M A := fun _ w => (Ok a, w).

Definition throw {A} (e : Error.t) : M A := fun _ w => (Throw e, w).

Definition bind {A B} (m : M A) (k : A -> M B) : M B :=
  fun h w =>
    match m h w with
    | (Ok a, w') => k a h w'
    | (Throw e, w') => (Throw e, w')
    end.

(** [try { body } catch (error) { handler }]. *)
Definition try_catch {A} (body : M A) (handler : Error.t -> M A) : M A :=
  fun h w =>
    match body h w with
    | (Ok a, w') => (Ok a, w')
    | (Throw e, w') => handler e h w'
    end.

#[global] Instance M_ret : MRet M := @ret.
#[global] Instance M_bind : MBind M := fun A B k m => bind m k.

Definition emit (e : Event) (w : World) : World :=
  {| store := store w; trace := trace w ++ [e]; ticks := ticks w |}.

(** The storage adapter ([new Storage()] of the extension framework): an
    asynchronous key/value store of text, [get] giving [undefined] ([None])
    for a key that is not there. *)
Definition storage_get (key : string) : M (option string) :=
  fun _ w => (Ok (store w !! key), emit (StorageGet key) w).

Definition storage_set (key value : string) : M unit :=
  fun _ w =>
    (Ok tt, {| store := <[key := value]> (store w);
               trace := trace w ++ [StorageSet key value];
               ticks := ticks w |}).

Definition storage_remove (key : string) : M unit :=
  fun _ w =>
    (Ok tt, {| store := delete key (store w);
               trace := trace w ++ [StorageRemove key];
               ticks := ticks w |}).

(** [Date.now()]. *)
Definition Date_now : M Z :=
  fun h w =>
    (Ok (clock h (ticks w)),
     {| store := store w; trace := trace w ++ [ClockRead]; ticks := S (ticks w) |}).

(** [await fetch(url, init)]. *)
Definition fetch (url : string) (init : RequestInit.t) : M Response.t :=
  fun h w => (network h url init, emit (NetworkFetch url init) w).

(** [await response.text()] and [await response.json()]. *)
Definition Response_text (r : Response.t) : M string :=
  fun _ w => (Response.text r, emit BodyRead w).

Definition Response_json (r : Response.t) : M SSOTokenResponse.t :=
  fun _ w => (Response.json r, emit BodyRead w).

(** [JSON.parse(text)], typed. *)
Definition JSON_parse {A} (parse : Host -> string -> Result (option A))
    (text : string) : M (option A) :=
  fun h w => (parse h text, w).

(** ** The module *)

Import SSOCredentials SSOTokenResponse GeminiAPIConfig.

(** Storage keys *)
Definition SSO_TOKEN_KEY : string := "sso_access_token".
Definition SSO_TOKEN_EXPIRY_KEY : string := "sso_token_expiry".
Definition SSO_CREDENTIALS_KEY : string := "sso_credentials".
Definition GEMINI_CONFIG_KEY : string := "gemini_api_config".

(** Get stored SSO credentials: [credentials ? JSON.parse(credentials) : null]. *)
Definition getSSOCredentials : M (option SSOCredentials.t) :=
  credentials ← storage_get SSO_CREDENTIALS_KEY;
  if truthy credentials
  then JSON_parse JSON_parse_credentials (default "" credentials)
  else mret None.

(** Store SSO credentials.  [JSON.stringify] at the record type is the
    host's; it is passed in as [stringify]. *)
Definition setSSOCredentials (stringify : SSOCredentials.t -> string)
    (credentials : SSOCredentials.t) : M unit :=
  storage_set SSO_CREDENTIALS_KEY (stringify credentials).

(** Get stored Gemini API configuration. *)
Definition getGeminiConfig : M (option GeminiAPIConfig.t) :=
  config ← storage_get GEMINI_CONFIG_KEY;
  if truthy config
  then JSON_parse JSON_parse_config (default "" config)
  else mret None.

(** Store Gemini API configuration. *)
Definition setGeminiConfig (stringify : GeminiAPIConfig.t -> string)
    (config : GeminiAPIConfig.t) : M unit :=
  storage_set GEMINI_CONFIG_KEY (stringify config).

(** Clear stored tokens. *)
Definition clearTokens : M unit :=
  storage_remove SSO_TOKEN_KEY;;
  storage_remove SSO_TOKEN_EXPIRY_KEY.

(** Get stored access token. *)
Definition getAccessToken : M (option string) :=
  token ← storage_get SSO_TOKEN_KEY;
  expiry ← storage_get SSO_TOKEN_EXPIRY_KEY;
  if negb (truthy token) || negb (truthy expiry) then mret None
  else
    now ← Date_now;
    if number_ge now (parseInt (default "" expiry)) then
      clearTokens;; mret None
    else mret token.

(** Store access token with expiry (5 minutes buffer).  The sum is the exact
    one; it is the host's as long as [exact_expiry] below holds. *)
Definition setAccessToken (tokenResponse : SSOTokenResponse.t) : M unit :=
  now ← Date_now;
  let expiryTime := now + (expires_in tokenResponse * 1000) - (5 * 60 * 1000) in
  storage_set SSO_TOKEN_KEY (access_token tokenResponse);;
  storage_set SSO_TOKEN_EXPIRY_KEY (Number_toString expiryTime).

(** [v || d] for a [string | undefined] value [v]. *)
Definition or_else (v : option string) (d : string) : string :=
  if truthy v then default "" v else d.

Definition requestBody (credentials : SSOCredentials.t) : list (string * string) :=
  [ ("userid", userid credentials);
    ("password", password credentials);
    ("otp", or_else (otp credentials) "NONE");
    ("otp_type", or_else (otp_type credentials) "PUSH") ].

Definition requestInit (credentials : SSOCredentials.t) : RequestInit.t :=
  {| RequestInit.method := "POST";
     RequestInit.headers := [("Content-Type", "application/json")];
     RequestInit.body := JSON_stringify (requestBody credentials);
     RequestInit.mode := "cors";
     RequestInit.credentials := "omit";
     RequestInit.redirect := "follow" |}.

Definition login_failed_message (response : Response.t) (errorDetails : string) : string :=
  "SSO login failed: " +:+ Number_toString (Response.status response) +:+ " "
  +:+ Response.statusText response +:+ ". Details: " +:+ errorDetails.

Definition network_error_message (ssoUrl : string) : string :=
  "Network error: Cannot reach SSO endpoint at " +:+ ssoUrl
  +:+ ". This might be due to:" +:+ LF
  +:+ "        1. CORS policy blocking the request" +:+ LF
  +:+ "        2. Network connectivity issues" +:+ LF
  +:+ "        3. SSL certificate problems" +:+ LF
  +:+ "        4. Firewall or VPN restrictions" +:+ LF
  +:+ "        " +:+ LF
  +:+ "        Please check your network connection and ensure the endpoint is accessible.".

(** The [try] block of [performSSOLogin]. *)
Definition performSSOLogin_try (ssoUrl : string) (credentials : SSOCredentials.t)
  : M SSOTokenResponse.t :=
  response ← fetch ssoUrl (requestInit credentials);
  if negb (Response.ok response) then
    errorDetails ← try_catch (Response_text response) (fun _ => mret "");
    throw (new_Error (login_failed_message response errorDetails))
  else
    tokenResponse ← Response_json response;
    setAccessToken tokenResponse;;
    mret tokenResponse.

(** The [catch] block of [performSSOLogin]. *)
Definition performSSOLogin_catch (ssoUrl : string) (error : Error.t)
  : M SSOTokenResponse.t :=
  if String.eqb (Error.message error) "Failed to fetch"
  then throw (new_Error (network_error_message ssoUrl))
  else throw error.

(** Perform SSO login. *)
Definition performSSOLogin (ssoUrl : string) (credentials : SSOCredentials.t)
  : M SSOTokenResponse.t :=
  try_catch (performSSOLogin_try ssoUrl credentials) (performSSOLogin_catch ssoUrl).

Definition not_configured_message : string :=
  "No stored credentials or config found. Please configure SSO settings.".

(** Get valid access token (refresh if needed). *)
Definition getValidAccessToken : M string :=
  token ← getAccessToken;
  if truthy token then mret (default "" token)
  else
    credentials ← getSSOCredentials;
    config ← getGeminiConfig;
    match credentials, config with
    | Some credentials, Some config =>
        tokenResponse ← performSSOLogin (ssoUrl config) credentials;
        mret (access_token tokenResponse)
    | _, _ => throw (new_Error not_configured_message)
    end.

(** Check if SSO is configured. *)
Definition isSSOConfigured : M bool :=
  credentials ← getSSOCredentials;
  config ← getGeminiConfig;
  mret match credentials, config with
       | Some credentials, Some config =>
           nonempty (userid credentials) && nonempty (password credentials)
           && nonempty (ssoUrl config) && nonempty (geminiApiUrl config)
       | _, _ => false
       end.

(** ** Vocabulary of the statements *)

(** The time the next reading of the clock shows in world [w]. *)
Definition time_now (h : Host) (w : World) : Z := clock h (ticks w).

(** The network requests of a trace, in order. *)
Definition network_calls (tr : list Event) : list (string * RequestInit.t) :=
  omap (fun e => match e with NetworkFetch url init => Some (url, init) | _ => None end) tr.


(** The storage writes and removals of a trace, in order. *)
Definition mutations (tr : list Event) : list Event :=
  omap (fun e => match e with
                 | StorageSet _ _ | StorageRemove _ => Some e
                 | _ => None
                 end) tr.

(** [Number.isSafeInteger]: the whole numbers on which the arithmetic and
    the decimal text of JavaScript's numbers are exact. *)
Definition MAX_SAFE_INTEGER : Z := 2 ^ 53 - 1.

Definition safe_integer (n : Z) : Prop :=
  - MAX_SAFE_INTEGER <= n <= MAX_SAFE_INTEGER.

(** The expiry [now + seconds * 1000 - 5 * 60 * 1000] is computed exactly:
    the operands and every intermediate result are safe integers. *)
Definition exact_expiry (now seconds : Z) : Prop :=
  safe_integer now /\ safe_integer (seconds * 1000)
  /\ safe_integer (now + seconds * 1000)
  /\ safe_integer (now + seconds * 1000 - 300000).

(** [needle] occurs in [text]. *)
Definition contains (text needle : string) : Prop :=
  exists before after, text = before +:+ needle +:+ after.

(** The detail text of a failed exchange: the body when it can be read, the
    empty text when reading it fails. *)
Definition error_details (response : Response.t) : string :=
  match Response.text response with
  | Ok text => text
  | Throw _ => ""
  end.

(** The token cache of store [s] holds the unexpired token [token] at time
    [now]: both fields are there and not empty, and [now >= parseInt(expiry)]
    is false. *)
Definition cache_holds (s : gmap string string) (now : Z) (token : string) : Prop :=
  s !! SSO_TOKEN_KEY = Some token /\ nonempty token = true /\
  exists expiry,
    s !! SSO_TOKEN_EXPIRY_KEY = Some expiry /\ nonempty expiry = true /\
    number_ge now (parseInt expiry) = false.

(** A persisted record as its accessor finds it: no record (no entry, an
    empty entry, or the text [null]), a record, or text that [JSON.parse]
    rejects. *)
Inductive Stored (A : Type) :=
| Absent
| Present (a : A)
| Malformed (e : Error.t).
Arguments Absent {A}.
Arguments Present {A} a.
Arguments Malformed {A} e.

Definition stored_record {A} (parse : string -> Result (option A))
    (entry : option string) : Stored A :=
  match entry with
  | Some (String c text) =>
      match parse (String c text) with
      | Ok (Some a) => Present a
      | Ok None => Absent
      | Throw e => Malformed e
      end
  | _ => Absent
  end.

Definition stored_credentials (h : Host) (s : gmap string string) : Stored SSOCredentials.t :=
  stored_record (JSON_parse_credentials h) (s !! SSO_CREDENTIALS_KEY).

Definition stored_config (h : Host) (s : gmap string string) : Stored GeminiAPIConfig.t :=
  stored_record (JSON_parse_config h) (s !! GEMINI_CONFIG_KEY).

Definition well_formed {A} (r : Stored A) : Prop :=
  match r with Malformed _ => False | _ => True end.

(** The payload as the specification words it, with [??]: the default is
    taken only when the property is [undefined]. *)
Definition requestBody_nullish (credentials : SSOCredentials.t) : list (string * string) :=
  [ ("userid", userid credentials);
    ("password", password credentials);
    ("otp", default "NONE" (otp credentials));
    ("otp_type", default "PUSH" (otp_type credentials)) ].

(** ** Sample hosts and worlds *)

Definition alice : SSOCredentials.t :=
  {| userid := "alice"; password := "s3cret"; otp := None; otp_type := None |}.

Definition alice_text : string :=
  JSON_stringify [("userid", "alice"); ("password", "s3cret")].

Definition vertex : GeminiAPIConfig.t :=
  {| ssoUrl := "https://sso.example.com/login";
     geminiApiUrl := "https://api.example.com";
     projectId := "p1"; location := "us-central1"; model := "gemini-pro" |}.

Definition vertex_text : string :=
  JSON_stringify [("ssoUrl", "https://sso.example.com/login");
                  ("geminiApiUrl", "https://api.example.com");
                  ("projectId", "p1"); ("location", "us-central1");
                  ("model", "gemini-pro")].

Definition bearer (token : string) (seconds : Z) : SSOTokenResponse.t :=
  {| access_token := token; scope := "openid"; id_token := "id";
     token_type := "Bearer"; expires_in := seconds; nonce := "n" |}.

Definition syntax_error : Error.t := Error.mk "SyntaxError" "Unexpected token".

(** A [JSON.parse] that knows [null] and one record. *)
Definition parse_known {A} (text : string) (a : A) (s : string) : Result (option A) :=
  if String.eqb s "null" then Ok None
  else if String.eqb s text then Ok (Some a)
  else Throw syntax_error.

(** A host whose clock shows [readings] and whose network answers every request
    with [answer]. *)
Definition sample_host (readings : nat -> Z) (answer : Result Response.t) : Host :=
  {| clock := readings;
     network := fun _ _ => answer;
     JSON_parse_credentials := parse_known alice_text alice;
     JSON_parse_config := parse_known vertex_text vertex |}.

Definition world_of (s : gmap string string) : World :=
  {| store := s; trace := []; ticks := 0 |}.

Definition unauthorized : Response.t :=
  {| Response.status := 401; Response.statusText := "Unauthorized";
     Response.text := Ok "invalid credentials";
     Response.json := Throw syntax_error |}.

Definition granted (tokenResponse : SSOTokenResponse.t) : Response.t :=
  {| Response.status := 200; Response.statusText := "OK";
     Response.text := Ok "";
     Response.json := Ok tokenResponse |}.

(** The rejection of [fetch] when the endpoint cannot be reached. *)
Definition failed_to_fetch : Error.t := Error.mk "TypeError" "Failed to fetch".

(** The rejection with which another family of browsers reports the same
    failure. *)
Definition network_error : Error.t :=
  Error.mk "TypeError" "NetworkError when attempting to fetch resource.".

(** A clock that starts at a recent wall-clock time and advances by one
    millisecond per reading. *)
Definition ticking_host (answer : Result Response.t) : Host :=
  sample_host (fun n => 1700000000000 + Z.of_nat n) answer.

(** The same clock on a network that is down. *)
Definition offline_host : Host := ticking_host (Throw failed_to_fetch).

(** A clock that advances by one hour per reading, on a network that is down. *)
Definition hourly_host : Host :=
  sample_host (fun n => 1700000000000 + 3600000 * Z.of_nat n) (Throw failed_to_fetch).

(** A success status whose body is not JSON. *)
Definition garbled : Response.t :=
  {| Response.status := 200; Response.statusText := "OK";
     Response.text := Ok "<html>";
     Response.json := Throw syntax_error |}.

(** Credentials whose passcode fields are there but empty. *)
Definition alice_blank_otp : SSOCredentials.t :=
  {| userid := "alice"; password := "s3cret"; otp := Some ""; otp_type := Some "" |}.

(** The world after [setAccessToken] has run in a fresh world. *)
Definition written (h : Host) (tokenResponse : SSOTokenResponse.t) : World :=
  snd (setAccessToken tokenResponse h (world_of ∅)).

(** A store whose expiry field is there but empty, one whose expiry field is
    not a number, and one with the token field alone. *)
Definition empty_expiry_store : gmap string string :=
  <[SSO_TOKEN_EXPIRY_KEY := ""]> (<[SSO_TOKEN_KEY := "abc"]> ∅).

Definition corrupt_expiry_store : gmap string string :=
  <[SSO_TOKEN_EXPIRY_KEY := "NaN"]> (<[SSO_TOKEN_KEY := "abc"]> ∅).

Definition token_only_store : gmap string string :=
  <[SSO_TOKEN_KEY := "abc"]> ∅.

(** A store with both records, and one with the credentials only. *)
Definition configured_store : gmap string string :=
  <[GEMINI_CONFIG_KEY := vertex_text]> (<[SSO_CREDENTIALS_KEY := alice_text]> ∅).

Definition credentials_only_store : gmap string string :=
  <[SSO_CREDENTIALS_KEY := alice_text]> ∅.

(** A store with no credentials and a configuration entry that is not JSON. *)
Definition malformed_config_store : gmap string string :=
  <[GEMINI_CONFIG_KEY := "{oops"]> ∅.

(** The JSON text of a credentials record and of a configuration record,
    properties in the order of the interface, an absent passcode left out. *)
Definition credentials_text (credentials : SSOCredentials.t) : string :=
  JSON_stringify
    ([("userid", userid credentials); ("password", password credentials)]
     ++ match otp credentials with Some v => [("otp", v)] | None => [] end
     ++ match otp_type credentials with Some v => [("otp_type", v)] | None => [] end).

Definition config_text (config : GeminiAPIConfig.t) : string :=
  JSON_stringify
    [("ssoUrl", ssoUrl config); ("geminiApiUrl", geminiApiUrl config);
     ("projectId", projectId config); ("location", location config);
     ("model", model config)].

(** Credentials with no user name. *)
Definition nameless : SSOCredentials.t :=
  {| userid := ""; password := "s3cret"; otp := None; otp_type := None |}.

(** A host that knows the records [credentials] and [config], with the
    millisecond clock. *)
Definition host_knowing (credentials : SSOCredentials.t) (config : GeminiAPIConfig.t)
    (answer : Result Response.t) : Host :=
  {| clock := fun n => 1700000000000 + Z.of_nat n;
     network := fun _ _ => answer;
     JSON_parse_credentials := parse_known (credentials_text credentials) credentials;
     JSON_parse_config := parse_known (config_text config) config |}.

(** A store with both records, the credentials being [credentials]. *)
Definition store_knowing (credentials : SSOCredentials.t) : gmap string string :=
  <[GEMINI_CONFIG_KEY := config_text vertex]>
    (<[SSO_CREDENTIALS_KEY := credentials_text credentials]> ∅).

(** A store with both records and a token that expired long ago. *)
Definition expired_store : gmap string string :=
  <[SSO_TOKEN_EXPIRY_KEY := "1000"]> (<[SSO_TOKEN_KEY := "old"]> configured_store).

(** A success status whose body cannot be read any more. *)
Definition cut_off : Response.t :=
  {| Response.status := 200; Response.statusText := "OK";
     Response.text := Throw failed_to_fetch;
     Response.json := Throw failed_to_fetch |}.

(** The world [w] once the clock has been read [n] more times elsewhere. *)
Definition later (n : nat) (w : World) : World :=
  {| store := store w; trace := trace w; ticks := (ticks w + n)%nat |}.

(** * Properties *)

(** ** Decimal text and [parseInt] *)

Lemma digit_value_pretty (d : N) :
  (d < 10)%N -> digit_value 10 (pretty_N_char d) = Some (Z.of_N d).
Proof.
  intros Hd.
  destruct d as [|p]; [reflexivity |].
  do 4 (try destruct p as [p|p|]); first [reflexivity | exfalso; lia].
Qed.

Lemma parse_digits_pretty_go (x : N) :
  forall s, parse_digits 10 (pretty_N_go x s) None
            = parse_digits 10 s (if (x =? 0)%N then None else Some (Z.of_N x)).
Proof.
  induction x as [x IH] using (well_founded_induction N.lt_wf_0); intros s.
  destruct (N.eqb_spec x 0) as [-> | Hx].
  - by rewrite pretty_N_go_0.
  - rewrite pretty_N_go_step by lia.
    rewrite IH by (apply N.div_lt; lia).
    cbn [parse_digits].
    rewrite digit_value_pretty by (apply N.mod_lt; lia).
    f_equal. f_equal.
    pose proof (N.div_mod x 10 ltac:(lia)) as Hdm.
    destruct (N.eqb_spec (x `div` 10) 0) as [Hq | Hq]; cbn [default].
    all: unfold id; lia.
Qed.

Lemma char_code_pretty (d : N) :
  (0 < d < 10)%N -> 49 <= char_code (pretty_N_char d) <= 57.
Proof.
  intros Hd.
  destruct d as [|p]; [lia |].
  do 4 (try destruct p as [p|p|]); first [vm_compute; split; discriminate | exfalso; lia].
Qed.

Lemma pretty_N_go_head (x : N) :
  forall s, (0 < x)%N ->
    exists c rest, pretty_N_go x s = String c rest /\ 49 <= char_code c <= 57.
Proof.
  induction x as [x IH] using (well_founded_induction N.lt_wf_0); intros s Hx.
  rewrite pretty_N_go_step by done.
  destruct (N.eq_dec (N.div x 10) 0%N) as [Hq | Hq].
  - rewrite Hq, pretty_N_go_0.
    eexists _, _; split; [reflexivity |].
    apply char_code_pretty.
    pose proof (N.mod_lt x 10 ltac:(lia)) as Hlt.
    pose proof (N.div_mod x 10 ltac:(lia)) as Hdm.
    rewrite Hq in Hdm. generalize dependent (N.modulo x 10). intros m Hm Hxm. clear Hq IH. lia.
  - apply IH; [apply N.div_lt; lia |].
    apply N.neq_0_lt_0, Hq.
Qed.

(** A string that starts with a printable ASCII character has no leading
    white space. *)
Lemma trim_start_printable (a : ascii) (s : string) :
  33 <= char_code a <= 127 -> trim_start (String a s) = String a s.
Proof.
  intros Ha. cbn [trim_start].
  assert (is_whitespace1 a = false) as ->.
  { unfold is_whitespace1.
    destruct (Z.leb_spec 9 (char_code a)), (Z.leb_spec (char_code a) 13),
      (Z.eqb_spec (char_code a) 32); simpl; first [reflexivity | lia]. }
  destruct s as [|b s]; [reflexivity |].
  assert (is_whitespace2 a b = false) as ->.
  { unfold is_whitespace2.
    destruct (Z.eqb_spec (char_code a) 194); [lia | reflexivity]. }
  destruct s as [|c s]; [reflexivity |].
  assert (is_whitespace3 a b c = false) as ->; [| reflexivity].
  unfold is_whitespace3.
  destruct (Z.eqb_spec (char_code a) 225), (Z.eqb_spec (char_code a) 226),
    (Z.eqb_spec (char_code a) 227), (Z.eqb_spec (char_code a) 239);
    first [lia | reflexivity].
Qed.

Lemma parseInt_digits (x : N) :
  (0 < x)%N ->
  trim_start (pretty_N_go x "") = pretty_N_go x ""
  /\ strip_sign (pretty_N_go x "") = (1, pretty_N_go x "")
  /\ strip_hex_prefix (pretty_N_go x "") = (10, pretty_N_go x "")
  /\ parse_digits 10 (pretty_N_go x "") None = Some (Z.of_N x).
Proof.
  intros Hx.
  destruct (pretty_N_go_head x "" Hx) as (c & rest & Heq & Hc).
  rewrite parse_digits_pretty_go.
  destruct (N.eqb_spec x 0) as [? | _]; [lia |].
  rewrite Heq. repeat split.
  - apply trim_start_printable. lia.
  - unfold strip_sign.
    destruct (Ascii.eqb_spec c "-") as [-> | _];
      [change (char_code "-") with 45 in Hc; lia |].
    destruct (Ascii.eqb_spec c "+") as [-> | _];
      [change (char_code "+") with 43 in Hc; lia |].
    reflexivity.
  - unfold strip_hex_prefix. destruct rest as [|b rest]; [reflexivity |].
    destruct (Ascii.eqb_spec c "0") as [-> | _];
      [change (char_code "0") with 48 in Hc; lia |].
    reflexivity.
Qed.

Lemma pretty_positive_go (p : positive) : pretty p = pretty_N_go (N.pos p) "".
Proof. reflexivity. Qed.

(** Decimal text reads back as the number it prints.  (For JavaScript this is
    a statement about the safe integers, where [Number_toString] is the text
    the host prints; the theorems that use it say so in their hypotheses.) *)
Lemma parseInt_Number_toString (n : Z) : parseInt (Number_toString n) = Some n.
Proof.
  unfold Number_toString, pretty, pretty_Z.
  destruct n as [|p|p]; [reflexivity | |]; rewrite pretty_positive_go;
    destruct (parseInt_digits (N.pos p) ltac:(lia)) as (Ht & Hs & Hx & Hp).
  - unfold parseInt. rewrite Ht, Hs, Hx, Hp. f_equal; lia.
  - unfold parseInt.
    change ("-" +:+ pretty_N_go (N.pos p) "") with (String "-" (pretty_N_go (N.pos p) "")).
    rewrite trim_start_printable by (change (char_code "-") with 45; lia).
    cbn [strip_sign Ascii.eqb Bool.eqb].
    rewrite Hx, Hp. f_equal; lia.
Qed.

Lemma Number_toString_nonempty (n : Z) : nonempty (Number_toString n) = true.
Proof.
  unfold Number_toString, pretty, pretty_Z.
  destruct n as [|p|p]; [reflexivity | | reflexivity].
  rewrite pretty_positive_go.
  destruct (pretty_N_go_head (N.pos p) "" ltac:(lia)) as (c & rest & -> & _).
  reflexivity.
Qed.

(** ** Running the computations *)

Ltac unfold_M :=
  unfold mbind, M_bind, mret, M_ret, bind, ret, throw, try_catch,
    storage_get, storage_set, storage_remove, Date_now, fetch,
    Response_text, Response_json, JSON_parse, emit;
  cbn [store trace ticks fst snd].

Ltac list_assoc := rewrite <- ?app_assoc; cbn [app].

(** Closes [safe_integer] and [exact_expiry] goals on concrete numbers. *)
Ltac in_range := vm_compute; repeat split; discriminate.

Lemma truthy_Some (v : option string) :
  truthy v = true -> exists s, v = Some s /\ nonempty s = true.
Proof. destruct v as [[|c s]|]; [discriminate | eauto | discriminate]. Qed.

Lemma nonempty_neq (s : string) : nonempty s = true <-> s <> "".
Proof. destruct s; split; intros H; try done. Qed.

(** [getAccessToken], branch by branch. *)
Lemma getAccessToken_run (h : Host) (w : World) :
  getAccessToken h w =
    let token := store w !! SSO_TOKEN_KEY in
    let expiry := store w !! SSO_TOKEN_EXPIRY_KEY in
    let reads := [StorageGet SSO_TOKEN_KEY; StorageGet SSO_TOKEN_EXPIRY_KEY] in
    if negb (truthy token) || negb (truthy expiry) then
      (Ok None, {| store := store w; trace := trace w ++ reads; ticks := ticks w |})
    else if number_ge (time_now h w) (parseInt (default "" expiry)) then
      (Ok None,
       {| store := delete SSO_TOKEN_EXPIRY_KEY (delete SSO_TOKEN_KEY (store w));
          trace := trace w ++ reads ++ [ClockRead; StorageRemove SSO_TOKEN_KEY;
                                        StorageRemove SSO_TOKEN_EXPIRY_KEY];
          ticks := S (ticks w) |})
    else
      (Ok token,
       {| store := store w; trace := trace w ++ reads ++ [ClockRead];
          ticks := S (ticks w) |}).
Proof.
  unfold getAccessToken, clearTokens, time_now. unfold_M.
  destruct (negb _ || negb _); [by list_assoc |].
  cbn [store trace ticks].
  destruct (number_ge _ _); cbn [store trace ticks]; by list_assoc.
Qed.

(** [setAccessToken] always completes, and writes the two fields. *)
Lemma setAccessToken_run (tokenResponse : SSOTokenResponse.t) (h : Host) (w : World) :
  setAccessToken tokenResponse h w =
    let expiryTime := time_now h w + expires_in tokenResponse * 1000 - 300000 in
    (Ok tt,
     {| store := <[SSO_TOKEN_EXPIRY_KEY := Number_toString expiryTime]>
                   (<[SSO_TOKEN_KEY := access_token tokenResponse]> (store w));
        trace := trace w ++ [ClockRead;
                             StorageSet SSO_TOKEN_KEY (access_token tokenResponse);
                             StorageSet SSO_TOKEN_EXPIRY_KEY (Number_toString expiryTime)];
        ticks := S (ticks w) |}).
Proof.
  unfold setAccessToken, time_now. unfold_M. by list_assoc.
Qed.

Lemma stored_record_run {A} (parse : string -> Result (option A)) (entry : option string) :
  (if truthy entry then parse (default "" entry) else Ok None)
  = match stored_record parse entry with
    | Absent => Ok None
    | Present a => Ok (Some a)
    | Malformed e => Throw e
    end.
Proof.
  destruct entry as [[|c s]|]; try reflexivity.
  cbn. by destruct (parse (String c s)) as [[a|]|e].
Qed.

Lemma getSSOCredentials_run (h : Host) (w : World) :
  getSSOCredentials h w =
    (match stored_credentials h (store w) with
     | Absent => Ok None
     | Present a => Ok (Some a)
     | Malformed e => Throw e
     end,
     {| store := store w; trace := trace w ++ [StorageGet SSO_CREDENTIALS_KEY];
        ticks := ticks w |}).
Proof.
  unfold stored_credentials. rewrite <- stored_record_run.
  unfold getSSOCredentials. unfold_M.
  by destruct (truthy (store w !! SSO_CREDENTIALS_KEY)).
Qed.

Lemma getGeminiConfig_run (h : Host) (w : World) :
  getGeminiConfig h w =
    (match stored_config h (store w) with
     | Absent => Ok None
     | Present a => Ok (Some a)
     | Malformed e => Throw e
     end,
     {| store := store w; trace := trace w ++ [StorageGet GEMINI_CONFIG_KEY];
        ticks := ticks w |}).
Proof.
  unfold stored_config. rewrite <- stored_record_run.
  unfold getGeminiConfig. unfold_M.
  by destruct (truthy (store w !! GEMINI_CONFIG_KEY)).
Qed.

Lemma mutations_app (tr evs : list Event) :
  mutations (tr ++ evs) = mutations tr ++ mutations evs.
Proof. apply omap_app. Qed.

Lemma network_calls_app (tr evs : list Event) :
  network_calls (tr ++ evs) = network_calls tr ++ network_calls evs.
Proof. apply omap_app. Qed.

(** A read of a cache whose two fields are there and not empty. *)
Lemma getAccessToken_both_fields (h : Host) (w : World) (token expiry : string) :
  store w !! SSO_TOKEN_KEY = Some token -> nonempty token = true ->
  store w !! SSO_TOKEN_EXPIRY_KEY = Some expiry -> nonempty expiry = true ->
  getAccessToken h w =
    if number_ge (time_now h w) (parseInt expiry) then
      (Ok None,
       {| store := delete SSO_TOKEN_EXPIRY_KEY (delete SSO_TOKEN_KEY (store w));
          trace := trace w ++ [StorageGet SSO_TOKEN_KEY; StorageGet SSO_TOKEN_EXPIRY_KEY;
                               ClockRead; StorageRemove SSO_TOKEN_KEY;
                               StorageRemove SSO_TOKEN_EXPIRY_KEY];
          ticks := S (ticks w) |})
    else
      (Ok (Some token),
       {| store := store w;
          trace := trace w ++ [StorageGet SSO_TOKEN_KEY; StorageGet SSO_TOKEN_EXPIRY_KEY;
                               ClockRead];
          ticks := S (ticks w) |}).
Proof.
  intros Ht Hnt He Hne. rewrite getAccessToken_run, Ht, He. cbn zeta.
  unfold nonempty in *. rewrite Hnt, Hne. reflexivity.
Qed.

(** A read of the cache that [setAccessToken] wrote, at any later moment at
    which the store still is as it was written. *)
Lemma getAccessToken_after_write (h : Host) (w w2 : World)
    (tokenResponse : SSOTokenResponse.t) :
  nonempty (access_token tokenResponse) = true ->
  store w2 = store (snd (setAccessToken tokenResponse h w)) ->
  getAccessToken h w2 =
    if time_now h w + expires_in tokenResponse * 1000 - 300000 <=? time_now h w2 then
      (Ok None,
       {| store := delete SSO_TOKEN_EXPIRY_KEY (delete SSO_TOKEN_KEY (store w2));
          trace := trace w2 ++ [StorageGet SSO_TOKEN_KEY; StorageGet SSO_TOKEN_EXPIRY_KEY;
                                ClockRead; StorageRemove SSO_TOKEN_KEY;
                                StorageRemove SSO_TOKEN_EXPIRY_KEY];
          ticks := S (ticks w2) |})
    else
      (Ok (Some (access_token tokenResponse)),
       {| store := store w2;
          trace := trace w2 ++ [StorageGet SSO_TOKEN_KEY; StorageGet SSO_TOKEN_EXPIRY_KEY;
                                ClockRead];
          ticks := S (ticks w2) |}).
Proof.
  intros Hne Hstore. rewrite setAccessToken_run in Hstore. cbn in Hstore.
  rewrite (getAccessToken_both_fields h w2 (access_token tokenResponse)
             (Number_toString (time_now h w + expires_in tokenResponse * 1000 - 300000))).
  - by rewrite parseInt_Number_toString.
  - rewrite Hstore. rewrite lookup_insert_ne by done. apply lookup_insert_eq.
  - done.
  - rewrite Hstore. apply lookup_insert_eq.
  - apply Number_toString_nonempty.
Qed.

(** ** The token cache *)

(** C1 (as amended): for every non-empty token stored by [setAccessToken]
    with [expires_in = E], a whole number of seconds, at wall-clock time [T],
    where [T], [E*1000], [T + E*1000] and [T + E*1000 - 300000] are safe
    integers (so that the expiry is computed and written exactly), a
    [getAccessToken] call at a time (a safe integer) strictly before
    [T + E*1000 - 300000] returns the stored token string and leaves the
    store as it is; a call at [T + E*1000 - 300000] or later returns absent
    and deletes both the token and the expiry field; in particular, when
    [E*1000 < 300000] the token is absent on the first read after the
    write. *)
Theorem token_expiry_boundary (h : Host) (w w2 : World)
    (tokenResponse : SSOTokenResponse.t) :
  nonempty (access_token tokenResponse) = true ->
  exact_expiry (time_now h w) (expires_in tokenResponse) ->
  safe_integer (time_now h w2) ->
  store w2 = store (snd (setAccessToken tokenResponse h w)) ->
  fst (setAccessToken tokenResponse h w) = Ok tt
  /\ store (snd (setAccessToken tokenResponse h w)) !! SSO_TOKEN_EXPIRY_KEY
     = Some (Number_toString
               (time_now h w + expires_in tokenResponse * 1000 - 300000))
  /\ (time_now h w2 < time_now h w + expires_in tokenResponse * 1000 - 300000 ->
      fst (getAccessToken h w2) = Ok (Some (access_token tokenResponse))
      /\ store (snd (getAccessToken h w2)) = store w2)
  /\ (time_now h w + expires_in tokenResponse * 1000 - 300000 <= time_now h w2 ->
      fst (getAccessToken h w2) = Ok None
      /\ store (snd (getAccessToken h w2))
         = delete SSO_TOKEN_EXPIRY_KEY (delete SSO_TOKEN_KEY (store w2))
      /\ store (snd (getAccessToken h w2)) !! SSO_TOKEN_KEY = None
      /\ store (snd (getAccessToken h w2)) !! SSO_TOKEN_EXPIRY_KEY = None)
  /\ (expires_in tokenResponse * 1000 < 300000 -> time_now h w <= time_now h w2 ->
      fst (getAccessToken h w2) = Ok None).
Proof.
  intros Hne _ _ Hstore.
  rewrite (getAccessToken_after_write h w w2 tokenResponse Hne Hstore).
  split; [by rewrite setAccessToken_run |].
  split; [rewrite setAccessToken_run; apply lookup_insert_eq |].
  destruct (Z.leb_spec (time_now h w + expires_in tokenResponse * 1000 - 300000)
              (time_now h w2)) as [Hle | Hlt]; cbn [fst snd store].
  - split; [lia |]. split; [| done]. intros _.
    split; [done |]. split; [done |]. split.
    + rewrite lookup_delete_ne by done. apply lookup_delete_eq.
    + apply lookup_delete_eq.
  - split; [done |]. split; intros; lia.
Qed.

Lemma token_expiry_boundary_witness :
  fst (getAccessToken offline_host (written offline_host (bearer "tok-123" 3600)))
    = Ok (Some "tok-123")
  /\ fst (getAccessToken hourly_host (written hourly_host (bearer "tok-123" 3600)))
    = Ok None
  /\ store (snd (getAccessToken hourly_host (written hourly_host (bearer "tok-123" 3600))))
       !! SSO_TOKEN_KEY = None
  /\ fst (getAccessToken offline_host (written offline_host (bearer "tok-123" 60)))
    = Ok None.
Proof.
  destruct (token_expiry_boundary offline_host (world_of ∅)
              (written offline_host (bearer "tok-123" 3600)) (bearer "tok-123" 3600)
              eq_refl ltac:(in_range) ltac:(in_range) eq_refl)
    as (_ & _ & Hvalid & _ & _).
  destruct (token_expiry_boundary hourly_host (world_of ∅)
              (written hourly_host (bearer "tok-123" 3600)) (bearer "tok-123" 3600)
              eq_refl ltac:(in_range) ltac:(in_range) eq_refl)
    as (_ & _ & _ & Hexpired & _).
  destruct (token_expiry_boundary offline_host (world_of ∅)
              (written offline_host (bearer "tok-123" 60)) (bearer "tok-123" 60)
              eq_refl ltac:(in_range) ltac:(in_range) eq_refl)
    as (_ & _ & _ & _ & Hshort).
  split; [apply Hvalid; vm_compute; reflexivity |].
  split; [apply Hexpired; vm_compute; discriminate |].
  split; [apply Hexpired; vm_compute; discriminate |].
  apply Hshort; [vm_compute; reflexivity | vm_compute; discriminate].
Defined.

(** C1 as stated fails for the empty token: written with one hour to live
    and read one millisecond later, well before the margin, it is not
    returned; the read answers absent. *)
Lemma empty_token_read_is_absent :
  time_now offline_host (written offline_host (bearer "" 3600))
    < time_now offline_host (world_of ∅) + 3600 * 1000 - 300000
  /\ fst (getAccessToken offline_host (written offline_host (bearer "" 3600)))
     = Ok None
  /\ fst (getAccessToken offline_host (written offline_host (bearer "" 3600)))
     <> Ok (Some (access_token (bearer "" 3600))).
Proof.
  split; [vm_compute; reflexivity |].
  split; [reflexivity | vm_compute; discriminate].
Qed.

(** C10: [getAccessToken] mutates the store only on the expired branch.  A
    call that returns a token string, and a call that finds the token field
    or the expiry field absent or empty, leaves the store as it is and
    neither writes nor removes a field (so a field that survives alone is not
    cleaned up); a call that writes, removes or changes anything found both
    fields and found the token expired. *)
Theorem getAccessToken_mutates_only_when_expired (h : Host) (w : World) :
  (forall token, fst (getAccessToken h w) = Ok (Some token) ->
     store (snd (getAccessToken h w)) = store w
     /\ mutations (trace (snd (getAccessToken h w))) = mutations (trace w))
  /\ (truthy (store w !! SSO_TOKEN_KEY) = false
      \/ truthy (store w !! SSO_TOKEN_EXPIRY_KEY) = false ->
      fst (getAccessToken h w) = Ok None
      /\ store (snd (getAccessToken h w)) = store w
      /\ mutations (trace (snd (getAccessToken h w))) = mutations (trace w))
  /\ (store (snd (getAccessToken h w)) <> store w
      \/ mutations (trace (snd (getAccessToken h w))) <> mutations (trace w) ->
      truthy (store w !! SSO_TOKEN_KEY) = true
      /\ truthy (store w !! SSO_TOKEN_EXPIRY_KEY) = true
      /\ number_ge (time_now h w)
           (parseInt (default "" (store w !! SSO_TOKEN_EXPIRY_KEY))) = true
      /\ fst (getAccessToken h w) = Ok None).
Proof.
  rewrite getAccessToken_run. cbn zeta.
  assert (Hquiet : forall evs, mutations evs = [] ->
            mutations (trace w ++ evs) = mutations (trace w)).
  { intros evs Hevs. by rewrite mutations_app, Hevs, app_nil_r. }
  destruct (truthy (store w !! SSO_TOKEN_KEY)) eqn:Ht;
    destruct (truthy (store w !! SSO_TOKEN_EXPIRY_KEY)) eqn:He;
    cbn [negb orb].
  1: destruct (number_ge _ _) eqn:Hge.
  all: cbn [fst snd store trace app]; rewrite ?Hquiet by done.
  - (* both fields, expired *)
    split; [intros ? [=] |]. split; [intros [[=] | [=]] | done].
  - (* both fields, not expired *)
    split; [done |]. split; [intros [[=] | [=]] |].
    intros [H | H]; by destruct H.
  - split; [intros ? [=] |]. split; [done |]. intros [H | H]; by destruct H.
  - split; [intros ? [=] |]. split; [done |]. intros [H | H]; by destruct H.
  - split; [intros ? [=] |]. split; [done |]. intros [H | H]; by destruct H.
Qed.

Lemma getAccessToken_mutates_only_when_expired_witness :
  (fst (getAccessToken offline_host (world_of token_only_store)) = Ok None
   /\ store (snd (getAccessToken offline_host (world_of token_only_store)))
      = token_only_store)
  /\ store (snd (getAccessToken offline_host (written offline_host (bearer "tok-123" 3600))))
     = store (written offline_host (bearer "tok-123" 3600))
  /\ fst (getAccessToken hourly_host (written hourly_host (bearer "tok-123" 3600)))
     = Ok None.
Proof.
  destruct (getAccessToken_mutates_only_when_expired offline_host
              (world_of token_only_store)) as (_ & Hmissing & _).
  destruct (getAccessToken_mutates_only_when_expired offline_host
              (written offline_host (bearer "tok-123" 3600))) as (Hvalid & _ & _).
  destruct (getAccessToken_mutates_only_when_expired hourly_host
              (written hourly_host (bearer "tok-123" 3600))) as (_ & _ & Hexpired).
  split; [| split].
  - destruct Hmissing as (Hr & Hs & _); [right; reflexivity |].
    split; [exact Hr | exact Hs].
  - apply (Hvalid "tok-123"). reflexivity.
  - apply Hexpired. right. vm_compute. discriminate.
Defined.

(** C9 (as amended): if the token field holds a non-empty string and the
    expiry field holds non-empty text that does not parse as a number
    ([parseInt] yields [NaN]), [getAccessToken] returns the stored token
    string and clears nothing, whatever the current time: [now >= NaN] is
    false, so the cached token stays valid. *)
Theorem getAccessToken_unparsable_expiry (h : Host) (w : World) (token expiry : string) :
  store w !! SSO_TOKEN_KEY = Some token -> nonempty token = true ->
  store w !! SSO_TOKEN_EXPIRY_KEY = Some expiry -> nonempty expiry = true ->
  parseInt expiry = None ->
  fst (getAccessToken h w) = Ok (Some token)
  /\ store (snd (getAccessToken h w)) = store w
  /\ mutations (trace (snd (getAccessToken h w))) = mutations (trace w).
Proof.
  intros Ht Hnt He Hne Hnan.
  rewrite (getAccessToken_both_fields h w token expiry Ht Hnt He Hne), Hnan.
  cbn [number_ge fst snd store trace].
  by rewrite mutations_app, app_nil_r.
Qed.

Lemma getAccessToken_unparsable_expiry_witness :
  parseInt "NaN" = None
  /\ fst (getAccessToken hourly_host (world_of corrupt_expiry_store)) = Ok (Some "abc")
  /\ store (snd (getAccessToken hourly_host (world_of corrupt_expiry_store)))
     = corrupt_expiry_store.
Proof.
  split; [reflexivity |].
  destruct (getAccessToken_unparsable_expiry hourly_host (world_of corrupt_expiry_store)
              "abc" "NaN" eq_refl eq_refl eq_refl eq_refl eq_refl) as (Hr & Hs & _).
  split; [exact Hr | exact Hs].
Defined.

(** C9 as stated fails when the expiry field is the empty text: it does not
    parse as a number, yet the read answers absent instead of the stored
    token. *)
Lemma empty_expiry_read_is_absent :
  store (world_of empty_expiry_store) !! SSO_TOKEN_KEY = Some "abc"
  /\ store (world_of empty_expiry_store) !! SSO_TOKEN_EXPIRY_KEY = Some ""
  /\ parseInt "" = None
  /\ fst (getAccessToken offline_host (world_of empty_expiry_store)) = Ok None
  /\ fst (getAccessToken offline_host (world_of empty_expiry_store)) <> Ok (Some "abc").
Proof.
  repeat split; try reflexivity. vm_compute. discriminate.
Qed.

(** ** The login exchange *)

Lemma append_assoc (a b c : string) : (a +:+ b) +:+ c = a +:+ (b +:+ c).
Proof. induction a as [|x a IH]; [reflexivity | exact (f_equal (String x) IH)]. Qed.

Lemma append_empty_r (a : string) : a +:+ "" = a.
Proof. induction a as [|x a IH]; [reflexivity | exact (f_equal (String x) IH)]. Qed.

(** The [try] block, outcome by outcome. *)
Lemma performSSOLogin_try_run (ssoUrl : string) (credentials : SSOCredentials.t)
    (h : Host) (w : World) :
  performSSOLogin_try ssoUrl credentials h w =
    let request := NetworkFetch ssoUrl (requestInit credentials) in
    match network h ssoUrl (requestInit credentials) with
    | Throw e =>
        (Throw e, {| store := store w; trace := trace w ++ [request]; ticks := ticks w |})
    | Ok response =>
        if Response.ok response then
          match Response.json response with
          | Throw e =>
              (Throw e, {| store := store w; trace := trace w ++ [request; BodyRead];
                           ticks := ticks w |})
          | Ok tokenResponse =>
              let expiryTime :=
                time_now h w + expires_in tokenResponse * 1000 - 300000 in
              (Ok tokenResponse,
               {| store := <[SSO_TOKEN_EXPIRY_KEY := Number_toString expiryTime]>
                             (<[SSO_TOKEN_KEY := access_token tokenResponse]> (store w));
                  trace := trace w ++
                    [request; BodyRead; ClockRead;
                     StorageSet SSO_TOKEN_KEY (access_token tokenResponse);
                     StorageSet SSO_TOKEN_EXPIRY_KEY (Number_toString expiryTime)];
                  ticks := S (ticks w) |})
          end
        else
          (Throw (new_Error (login_failed_message response (error_details response))),
           {| store := store w; trace := trace w ++ [request; BodyRead];
              ticks := ticks w |})
    end.
Proof.
  unfold performSSOLogin_try, setAccessToken, error_details, time_now. unfold_M.
  destruct (network h ssoUrl (requestInit credentials)) as [response | e]; [| done].
  destruct (Response.ok response); cbn [negb].
  - destruct (Response.json response) as [tokenResponse | e];
      cbn [store trace ticks]; by list_assoc.
  - destruct (Response.text response) as [text | e];
      cbn [store trace ticks]; by list_assoc.
Qed.

(** The error of a failed HTTP exchange is never taken for a transport
    failure. *)
Lemma login_failed_not_transport (response : Response.t) (details : string) :
  String.eqb (login_failed_message response details) "Failed to fetch" = false.
Proof. reflexivity. Qed.

(** The [catch] block. *)
Lemma performSSOLogin_catch_run (ssoUrl : string) (e : Error.t) (h : Host) (w : World) :
  performSSOLogin_catch ssoUrl e h w =
    (Throw (if String.eqb (Error.message e) "Failed to fetch"
            then new_Error (network_error_message ssoUrl) else e), w).
Proof.
  unfold performSSOLogin_catch. by destruct (String.eqb _ _).
Qed.

Lemma performSSOLogin_run (ssoUrl : string) (credentials : SSOCredentials.t)
    (h : Host) (w : World) :
  performSSOLogin ssoUrl credentials h w =
    match performSSOLogin_try ssoUrl credentials h w with
    | (Ok tokenResponse, w') => (Ok tokenResponse, w')
    | (Throw e, w') =>
        (Throw (if String.eqb (Error.message e) "Failed to fetch"
                then new_Error (network_error_message ssoUrl) else e), w')
    end.
Proof.
  unfold performSSOLogin, try_catch.
  destruct (performSSOLogin_try ssoUrl credentials h w) as [[tokenResponse | e] w'];
    [done | apply performSSOLogin_catch_run].
Qed.

(** C4: on a non-success HTTP response [performSSOLogin] fails with an error
    whose message holds the status code, the status text and whatever of the
    response body could be read (nothing, when reading it fails), and the
    token cache (the whole store) is left as it was. *)
Theorem performSSOLogin_http_failure (h : Host) (w : World) (ssoUrl : string)
    (credentials : SSOCredentials.t) (response : Response.t) :
  network h ssoUrl (requestInit credentials) = Ok response ->
  Response.ok response = false ->
  fst (performSSOLogin ssoUrl credentials h w)
    = Throw (new_Error (login_failed_message response (error_details response)))
  /\ contains (login_failed_message response (error_details response))
       (Number_toString (Response.status response))
  /\ contains (login_failed_message response (error_details response))
       (Response.statusText response)
  /\ contains (login_failed_message response (error_details response))
       (error_details response)
  /\ (forall text, Response.text response = Ok text -> error_details response = text)
  /\ (forall e, Response.text response = Throw e -> error_details response = "")
  /\ store (snd (performSSOLogin ssoUrl credentials h w)) = store w
  /\ mutations (trace (snd (performSSOLogin ssoUrl credentials h w)))
     = mutations (trace w).
Proof.
  intros Hfetch Hok.
  rewrite performSSOLogin_run, performSSOLogin_try_run, Hfetch, Hok.
  cbn zeta. unfold new_Error. cbn [Error.message].
  rewrite login_failed_not_transport. cbn [fst snd store trace].
  split; [done |]. unfold login_failed_message.
  split; [by exists "SSO login failed: ", (" " +:+ Response.statusText response
                      +:+ ". Details: " +:+ error_details response) |].
  split.
  { exists ("SSO login failed: " +:+ Number_toString (Response.status response) +:+ " "),
      (". Details: " +:+ error_details response).
    by rewrite !append_assoc. }
  split.
  { exists ("SSO login failed: " +:+ Number_toString (Response.status response) +:+ " "
            +:+ Response.statusText response +:+ ". Details: "), "".
    by rewrite append_empty_r, !append_assoc. }
  unfold error_details.
  split; [by intros text -> |]. split; [by intros e -> |].
  split; [done |]. by rewrite mutations_app, app_nil_r.
Qed.

Lemma performSSOLogin_http_failure_witness :
  Response.ok unauthorized = false
  /\ fst (performSSOLogin "https://sso.example.com/login" alice
            (ticking_host (Ok unauthorized)) (world_of token_only_store))
     = Throw (new_Error
                "SSO login failed: 401 Unauthorized. Details: invalid credentials")
  /\ store (snd (performSSOLogin "https://sso.example.com/login" alice
                   (ticking_host (Ok unauthorized)) (world_of token_only_store)))
     = token_only_store.
Proof.
  split; [reflexivity |].
  destruct (performSSOLogin_http_failure (ticking_host (Ok unauthorized))
              (world_of token_only_store) "https://sso.example.com/login" alice
              unauthorized eq_refl eq_refl) as (Hr & _ & _ & _ & _ & _ & Hs & _).
  split; [exact Hr | exact Hs].
Defined.

Lemma network_error_message_causes (ssoUrl : string) :
  contains (network_error_message ssoUrl) "CORS policy"
  /\ contains (network_error_message ssoUrl) "Network connectivity"
  /\ contains (network_error_message ssoUrl) "SSL certificate"
  /\ contains (network_error_message ssoUrl) "Firewall or VPN".
Proof.
  unfold network_error_message.
  set (head := "Network error: Cannot reach SSO endpoint at " +:+ ssoUrl
               +:+ ". This might be due to:" +:+ LF).
  set (tail4 := "        " +:+ LF
     +:+ "        Please check your network connection and ensure the endpoint is accessible.").
  set (line4 := "        4. Firewall or VPN restrictions" +:+ LF +:+ tail4).
  set (line3 := "        3. SSL certificate problems" +:+ LF +:+ line4).
  set (line2 := "        2. Network connectivity issues" +:+ LF +:+ line3).
  repeat split.
  - exists (head +:+ "        1. "), (" blocking the request" +:+ LF +:+ line2).
    subst head. by rewrite !append_assoc.
  - exists (head +:+ "        1. CORS policy blocking the request" +:+ LF +:+ "        2. "),
      (" issues" +:+ LF +:+ line3).
    subst head line2. by rewrite !append_assoc.
  - exists (head +:+ "        1. CORS policy blocking the request" +:+ LF
            +:+ "        2. Network connectivity issues" +:+ LF +:+ "        3. "),
      (" problems" +:+ LF +:+ line4).
    subst head line2 line3. by rewrite !append_assoc.
  - exists (head +:+ "        1. CORS policy blocking the request" +:+ LF
            +:+ "        2. Network connectivity issues" +:+ LF
            +:+ "        3. SSL certificate problems" +:+ LF +:+ "        4. "),
      (" restrictions" +:+ LF +:+ tail4).
    subst head line2 line3 line4. by rewrite !append_assoc.
Qed.

(** C5 (as amended): the [catch] block of [performSSOLogin] recognises a
    transport-level failure by the wording of the error, not by where it was
    thrown.  When the fetch itself rejects (the endpoint cannot be reached)
    with an error whose message is exactly [Failed to fetch],
    [performSSOLogin] throws an expanded diagnostic error that names the
    plausible causes (CORS policy, network connectivity, SSL certificate,
    firewall or VPN) in place of the raw error; a rejection of the fetch with
    any other message is thrown again unchanged.  The same test is applied to
    the error of reading the body of a success response: it is replaced by
    the diagnostic when its message is exactly [Failed to fetch] and thrown
    again unchanged otherwise.  The error raised for a non-success HTTP
    response is always thrown again unchanged. *)
Theorem performSSOLogin_error_signalling (h : Host) (w : World) (ssoUrl : string)
    (credentials : SSOCredentials.t) :
  (forall e, network h ssoUrl (requestInit credentials) = Throw e ->
     (Error.message e = "Failed to fetch" ->
      fst (performSSOLogin ssoUrl credentials h w)
        = Throw (new_Error (network_error_message ssoUrl))
      /\ new_Error (network_error_message ssoUrl) <> e)
     /\ (Error.message e <> "Failed to fetch" ->
         fst (performSSOLogin ssoUrl credentials h w) = Throw e))
  /\ (forall response e,
        network h ssoUrl (requestInit credentials) = Ok response ->
        Response.ok response = true ->
        Response.json response = Throw e ->
        (Error.message e = "Failed to fetch" ->
         fst (performSSOLogin ssoUrl credentials h w)
           = Throw (new_Error (network_error_message ssoUrl)))
        /\ (Error.message e <> "Failed to fetch" ->
            fst (performSSOLogin ssoUrl credentials h w) = Throw e))
  /\ (forall response,
        network h ssoUrl (requestInit credentials) = Ok response ->
        Response.ok response = false ->
        fst (performSSOLogin ssoUrl credentials h w)
          = Throw (new_Error (login_failed_message response (error_details response))))
  /\ contains (network_error_message ssoUrl) "CORS policy"
  /\ contains (network_error_message ssoUrl) "Network connectivity"
  /\ contains (network_error_message ssoUrl) "SSL certificate"
  /\ contains (network_error_message ssoUrl) "Firewall or VPN".
Proof.
  rewrite performSSOLogin_run, performSSOLogin_try_run.
  split; [| split; [| split; [| apply network_error_message_causes]]].
  - intros e ->. cbn [fst]. split.
    + intros Hmsg. rewrite Hmsg. split; [done |]. intros <-. discriminate Hmsg.
    + intros Hmsg. by apply String.eqb_neq in Hmsg as ->.
  - intros response e -> -> ->. cbn [fst]. split.
    + intros Hmsg. by rewrite Hmsg.
    + intros Hmsg. by apply String.eqb_neq in Hmsg as ->.
  - intros response -> ->. cbn [fst]. unfold new_Error at 1. cbn [Error.message].
    by rewrite login_failed_not_transport.
Qed.

Lemma performSSOLogin_error_signalling_witness :
  fst (performSSOLogin "https://sso.example.com/login" alice offline_host (world_of ∅))
    = Throw (new_Error (network_error_message "https://sso.example.com/login"))
  /\ fst (performSSOLogin "https://sso.example.com/login" alice
            (ticking_host (Throw network_error)) (world_of ∅))
     = Throw network_error
  /\ fst (performSSOLogin "https://sso.example.com/login" alice
            (ticking_host (Ok garbled)) (world_of ∅))
     = Throw syntax_error.
Proof.
  destruct (performSSOLogin_error_signalling offline_host (world_of ∅)
              "https://sso.example.com/login" alice) as (Htransport & _).
  destruct (performSSOLogin_error_signalling (ticking_host (Throw network_error))
              (world_of ∅) "https://sso.example.com/login" alice) as (Hworded & _).
  destruct (performSSOLogin_error_signalling (ticking_host (Ok garbled)) (world_of ∅)
              "https://sso.example.com/login" alice) as (_ & Hbody & _).
  split; [| split].
  - apply (Htransport failed_to_fetch); reflexivity.
  - apply (Hworded network_error); [reflexivity | discriminate].
  - apply (Hbody garbled syntax_error); [reflexivity .. | discriminate].
Defined.

(** C5 as stated fails in both directions.  A fetch that cannot reach the
    endpoint and rejects with another wording than [Failed to fetch] (here
    the one of another family of browsers) is thrown again as the raw error,
    without the diagnostic; and an error thrown after the endpoint was
    reached and answered with a success status (reading the body rejects with
    the message [Failed to fetch]) is not thrown again unchanged but replaced
    by the diagnostic. *)
Lemma transport_failure_is_recognised_by_wording :
  (network (ticking_host (Throw network_error)) "https://sso.example.com/login"
     (requestInit alice) = Throw network_error
   /\ fst (performSSOLogin "https://sso.example.com/login" alice
             (ticking_host (Throw network_error)) (world_of ∅))
      = Throw network_error
   /\ fst (performSSOLogin "https://sso.example.com/login" alice
             (ticking_host (Throw network_error)) (world_of ∅))
      <> Throw (new_Error (network_error_message "https://sso.example.com/login")))
  /\ (network (ticking_host (Ok cut_off)) "https://sso.example.com/login"
        (requestInit alice) = Ok cut_off
      /\ Response.ok cut_off = true
      /\ Response.json cut_off = Throw failed_to_fetch
      /\ fst (performSSOLogin "https://sso.example.com/login" alice
                (ticking_host (Ok cut_off)) (world_of ∅))
         = Throw (new_Error (network_error_message "https://sso.example.com/login"))
      /\ fst (performSSOLogin "https://sso.example.com/login" alice
                (ticking_host (Ok cut_off)) (world_of ∅))
         <> Throw failed_to_fetch).
Proof.
  split.
  - split; [reflexivity |]. split; [reflexivity | vm_compute; discriminate].
  - split; [reflexivity |]. split; [reflexivity |]. split; [reflexivity |].
    split; [reflexivity | vm_compute; discriminate].
Qed.

(** C6 (as amended): for every credentials record [performSSOLogin] sends
    exactly one request, a POST with JSON content type, cross-origin mode, no
    credentials attached and redirects followed, whose body is the JSON text
    of [{userid, password, otp, otp_type}]; a stored [otp] or [otp_type] is
    passed through when it is a non-empty string, and the defaults [NONE] and
    [PUSH] are taken when the field is absent or is the empty string. *)
Theorem performSSOLogin_request (h : Host) (w : World) (ssoUrl : string)
    (credentials : SSOCredentials.t) :
  network_calls (trace (snd (performSSOLogin ssoUrl credentials h w)))
  = network_calls (trace w) ++
    [ (ssoUrl,
       {| RequestInit.method := "POST";
          RequestInit.headers := [("Content-Type", "application/json")];
          RequestInit.body :=
            JSON_stringify
              [ ("userid", userid credentials);
                ("password", password credentials);
                ("otp", match otp credentials with
                        | Some (String c s) => String c s
                        | _ => "NONE"
                        end);
                ("otp_type", match otp_type credentials with
                             | Some (String c s) => String c s
                             | _ => "PUSH"
                             end) ];
          RequestInit.mode := "cors";
          RequestInit.credentials := "omit";
          RequestInit.redirect := "follow" |}) ].
Proof.
  assert (Hinit : forall evs, network_calls evs = [] ->
            network_calls (trace w ++ NetworkFetch ssoUrl (requestInit credentials) :: evs)
            = network_calls (trace w) ++ [(ssoUrl, requestInit credentials)]).
  { intros evs Hevs. rewrite network_calls_app.
    change (network_calls (NetworkFetch ssoUrl (requestInit credentials) :: evs))
      with ((ssoUrl, requestInit credentials) :: network_calls evs).
    by rewrite Hevs. }
  assert (Hbody : requestInit credentials = requestInit credentials) by done.
  unfold requestInit at 2 in Hbody. unfold requestBody, or_else in Hbody.
  replace (if truthy (otp credentials) then default "" (otp credentials) else "NONE")
    with (match otp credentials with Some (String c s) => String c s | _ => "NONE" end)
    in Hbody by (by destruct (otp credentials) as [[|c s]|]).
  replace (if truthy (otp_type credentials) then default "" (otp_type credentials) else "PUSH")
    with (match otp_type credentials with Some (String c s) => String c s | _ => "PUSH" end)
    in Hbody by (by destruct (otp_type credentials) as [[|c s]|]).
  rewrite <- Hbody. clear Hbody.
  rewrite performSSOLogin_run, performSSOLogin_try_run. cbn zeta.
  destruct (network h ssoUrl (requestInit credentials)) as [response | e];
    [destruct (Response.ok response);
       [destruct (Response.json response) as [tokenResponse | e] |] |];
    cbn [fst snd trace]; by apply Hinit.
Qed.

(** C6 as stated fails for a passcode that is there but empty: the request
    carries the defaults, not the empty strings that [??] would pass
    through. *)
Lemma blank_otp_is_replaced :
  network_calls (trace (snd (performSSOLogin "https://sso.example.com/login"
                               alice_blank_otp offline_host (world_of ∅))))
  <> [ ("https://sso.example.com/login",
        {| RequestInit.method := "POST";
           RequestInit.headers := [("Content-Type", "application/json")];
           RequestInit.body := JSON_stringify (requestBody_nullish alice_blank_otp);
           RequestInit.mode := "cors";
           RequestInit.credentials := "omit";
           RequestInit.redirect := "follow" |}) ].
Proof.
  vm_compute. discriminate.
Qed.

(** C7 (as amended): writing a non-empty token and then reading it gives back
    the same string.  For every token response with a non-empty
    [access_token] and with [expires_in = E], a whole number of seconds,
    written at wall-clock time [T], where [T], [E*1000], [T + E*1000] and
    [T + E*1000 - 300000] are safe integers, [setAccessToken] followed by a
    [getAccessToken] that runs at a time (a safe integer) strictly before
    [T + E*1000 - 300000] returns that [access_token]; and a successful login
    exchange (a success status with a token body) returns the body and leaves
    the cache such that a later [getAccessToken] strictly before
    [T + E*1000 - 300000] returns the same string. *)
Theorem token_round_trip (h : Host) (w w2 : World) (ssoUrl : string)
    (credentials : SSOCredentials.t) (response : Response.t)
    (tokenResponse : SSOTokenResponse.t) :
  nonempty (access_token tokenResponse) = true ->
  exact_expiry (time_now h w) (expires_in tokenResponse) ->
  safe_integer (time_now h w2) ->
  time_now h w2 < time_now h w + expires_in tokenResponse * 1000 - 300000 ->
  (store w2 = store (snd (setAccessToken tokenResponse h w)) ->
   fst (getAccessToken h w2) = Ok (Some (access_token tokenResponse)))
  /\ (network h ssoUrl (requestInit credentials) = Ok response ->
      Response.ok response = true ->
      Response.json response = Ok tokenResponse ->
      fst (performSSOLogin ssoUrl credentials h w) = Ok tokenResponse
      /\ (store w2 = store (snd (performSSOLogin ssoUrl credentials h w)) ->
          fst (getAccessToken h w2) = Ok (Some (access_token tokenResponse)))).
Proof.
  intros Hne _ _ Hearly.
  assert (Hread : store w2 = store (snd (setAccessToken tokenResponse h w)) ->
                  fst (getAccessToken h w2) = Ok (Some (access_token tokenResponse))).
  { intros Hstore. rewrite (getAccessToken_after_write h w w2 tokenResponse Hne Hstore).
    destruct (Z.leb_spec (time_now h w + expires_in tokenResponse * 1000 - 300000)
                (time_now h w2)); [lia | done]. }
  split; [exact Hread |].
  intros Hfetch Hok Hjson.
  rewrite performSSOLogin_run, performSSOLogin_try_run, Hfetch, Hok, Hjson.
  cbn [fst snd store]. split; [done |].
  intros Hstore. apply Hread. by rewrite setAccessToken_run.
Qed.

Lemma token_round_trip_witness :
  fst (getAccessToken offline_host (written offline_host (bearer "tok-123" 3600)))
    = Ok (Some "tok-123")
  /\ fst (performSSOLogin "https://sso.example.com/login" alice
            (ticking_host (Ok (granted (bearer "tok-123" 3600)))) (world_of ∅))
     = Ok (bearer "tok-123" 3600)
  /\ fst (getAccessToken (ticking_host (Ok (granted (bearer "tok-123" 3600))))
            (snd (performSSOLogin "https://sso.example.com/login" alice
                    (ticking_host (Ok (granted (bearer "tok-123" 3600)))) (world_of ∅))))
     = Ok (Some "tok-123").
Proof.
  destruct (token_round_trip offline_host (world_of ∅)
              (written offline_host (bearer "tok-123" 3600))
              "https://sso.example.com/login" alice
              (granted (bearer "tok-123" 3600)) (bearer "tok-123" 3600)
              eq_refl ltac:(in_range) ltac:(in_range) eq_refl) as (Hwrite & _).
  destruct (token_round_trip (ticking_host (Ok (granted (bearer "tok-123" 3600))))
              (world_of ∅)
              (snd (performSSOLogin "https://sso.example.com/login" alice
                      (ticking_host (Ok (granted (bearer "tok-123" 3600))))
                      (world_of ∅)))
              "https://sso.example.com/login" alice
              (granted (bearer "tok-123" 3600)) (bearer "tok-123" 3600)
              eq_refl ltac:(in_range) ltac:(in_range) eq_refl) as (_ & Hlogin).
  destruct (Hlogin eq_refl eq_refl eq_refl) as (Hbody & Hcache).
  split; [apply Hwrite; reflexivity |].
  split; [exact Hbody | apply Hcache; reflexivity].
Defined.

(** C7 as stated fails for a token response whose [access_token] is the empty
    string: the login exchange succeeds and returns the body, but the read
    that follows answers absent, not the same string. *)
Lemma empty_token_login_does_not_round_trip :
  fst (performSSOLogin "https://sso.example.com/login" alice
         (ticking_host (Ok (granted (bearer "" 3600)))) (world_of ∅))
    = Ok (bearer "" 3600)
  /\ fst (getAccessToken (ticking_host (Ok (granted (bearer "" 3600))))
            (snd (performSSOLogin "https://sso.example.com/login" alice
                    (ticking_host (Ok (granted (bearer "" 3600)))) (world_of ∅))))
     <> Ok (Some (access_token (bearer "" 3600))).
Proof.
  split; [reflexivity | vm_compute; discriminate].
Qed.

(** ** The orchestrator and the presence check *)




(** A read that finds no valid token answers absent, makes no network call
    and leaves the two persisted records alone. *)
Lemma getAccessToken_no_cache (h : Host) (w : World) :
  (forall token, ~ cache_holds (store w) (time_now h w) token) ->
  exists w1,
    getAccessToken h w = (Ok None, w1)
    /\ store w1 !! SSO_CREDENTIALS_KEY = store w !! SSO_CREDENTIALS_KEY
    /\ store w1 !! GEMINI_CONFIG_KEY = store w !! GEMINI_CONFIG_KEY
    /\ network_calls (trace w1) = network_calls (trace w).
Proof.
  intros Hnone. rewrite getAccessToken_run. cbn zeta.
  destruct (truthy (store w !! SSO_TOKEN_KEY)) eqn:Ht;
    [destruct (truthy (store w !! SSO_TOKEN_EXPIRY_KEY)) eqn:He |]; cbn [negb orb].
  1: destruct (number_ge _ _) eqn:Hge.
  all: try (eexists; split; [reflexivity |]; cbn [store trace];
            rewrite network_calls_app, app_nil_r, ?lookup_delete_ne by done; done).
  destruct (truthy_Some _ Ht) as (token & Htoken & Hnt).
  destruct (truthy_Some _ He) as (expiry & Hexpiry & Hne).
  destruct (Hnone token). rewrite Hexpiry in Hge.
  split; [done |]. split; [done |]. by exists expiry.
Qed.

(** C3 (as amended): when no valid token is cached, each of the two
    persisted records is either absent or text that [JSON.parse] accepts,
    and the credentials or the endpoint configuration is absent,
    [getValidAccessToken] fails with the configuration-missing error, whose
    message tells the caller to configure SSO, and no network call is
    made. *)
Theorem getValidAccessToken_not_configured (h : Host) (w : World) :
  (forall token, ~ cache_holds (store w) (time_now h w) token) ->
  well_formed (stored_credentials h (store w)) ->
  well_formed (stored_config h (store w)) ->
  stored_credentials h (store w) = Absent \/ stored_config h (store w) = Absent ->
  fst (getValidAccessToken h w) = Throw (new_Error not_configured_message)
  /\ contains not_configured_message "Please configure SSO settings"
  /\ network_calls (trace (snd (getValidAccessToken h w))) = network_calls (trace w).
Proof.
  intros Hnone Hwfc Hwfg Habsent.
  destruct (getAccessToken_no_cache h w Hnone) as (w1 & Hget & Hc & Hg & Hnet).
  unfold getValidAccessToken, mbind, M_bind, bind. rewrite Hget. cbn [truthy].
  rewrite getSSOCredentials_run.
  unfold stored_credentials, stored_config in *. rewrite Hc.
  destruct (stored_record (JSON_parse_credentials h) (store w !! SSO_CREDENTIALS_KEY))
    as [| credentials | e]; [| | done];
    rewrite getGeminiConfig_run; unfold stored_config; cbn [store]; rewrite Hg;
    destruct (stored_record (JSON_parse_config h) (store w !! GEMINI_CONFIG_KEY))
      as [| config | e]; try done; try (by destruct Habsent).
  all: cbn [fst snd trace]; unfold throw; cbn [fst snd trace].
  all: split; [done |].
  all: split; [by exists "No stored credentials or config found. ", "." |].
  all: by rewrite !network_calls_app, !app_nil_r.
Qed.

Lemma getValidAccessToken_not_configured_witness :
  fst (getValidAccessToken offline_host (world_of credentials_only_store))
    = Throw (new_Error
               "No stored credentials or config found. Please configure SSO settings.")
  /\ network_calls
       (trace (snd (getValidAccessToken offline_host (world_of credentials_only_store))))
     = [].
Proof.
  assert (Hnone : forall token,
            ~ cache_holds (store (world_of credentials_only_store))
                (time_now offline_host (world_of credentials_only_store)) token).
  { intros token (Htoken & _). vm_compute in Htoken. discriminate Htoken. }
  destruct (getValidAccessToken_not_configured offline_host
              (world_of credentials_only_store) Hnone I I (or_intror eq_refl))
    as (Hr & _ & Hnet).
  split; [exact Hr | exact Hnet].
Defined.

(** C3 as stated fails when the other record is text that [JSON.parse]
    rejects: with nothing cached, no credentials stored and the configuration
    entry [{oops], the two accessors are called in turn and the second throws
    the parse error before the absence of the first is looked at; the failure
    is that [SyntaxError], not the configuration-missing error. *)
Lemma missing_credentials_beside_malformed_config :
  malformed_config_store !! SSO_TOKEN_KEY = None
  /\ malformed_config_store !! SSO_CREDENTIALS_KEY = None
  /\ stored_credentials offline_host malformed_config_store = Absent
  /\ malformed_config_store !! GEMINI_CONFIG_KEY = Some "{oops"
  /\ fst (getValidAccessToken offline_host (world_of malformed_config_store))
     = Throw syntax_error
  /\ fst (getValidAccessToken offline_host (world_of malformed_config_store))
     <> Throw (new_Error not_configured_message).
Proof.
  repeat split; try reflexivity. vm_compute. discriminate.
Qed.

Lemma isSSOConfigured_run (h : Host) (w : World) :
  isSSOConfigured h w =
    match stored_credentials h (store w), stored_config h (store w) with
    | Malformed e, _ =>
        (Throw e, {| store := store w;
                     trace := trace w ++ [StorageGet SSO_CREDENTIALS_KEY];
                     ticks := ticks w |})
    | _, Malformed e =>
        (Throw e, {| store := store w;
                     trace := trace w ++ [StorageGet SSO_CREDENTIALS_KEY;
                                          StorageGet GEMINI_CONFIG_KEY];
                     ticks := ticks w |})
    | Present credentials, Present config =>
        (Ok (nonempty (userid credentials) && nonempty (password credentials)
             && nonempty (ssoUrl config) && nonempty (geminiApiUrl config)),
         {| store := store w;
            trace := trace w ++ [StorageGet SSO_CREDENTIALS_KEY;
                                 StorageGet GEMINI_CONFIG_KEY];
            ticks := ticks w |})
    | _, _ =>
        (Ok false,
         {| store := store w;
            trace := trace w ++ [StorageGet SSO_CREDENTIALS_KEY;
                                 StorageGet GEMINI_CONFIG_KEY];
            ticks := ticks w |})
    end.
Proof.
  unfold isSSOConfigured, mbind, M_bind, bind. rewrite getSSOCredentials_run.
  destruct (stored_credentials h (store w)) as [| credentials | e]; [| | done];
    rewrite getGeminiConfig_run; cbn [store trace ticks];
    destruct (stored_config h (store w)) as [| config | e];
    unfold mret, M_ret, ret; by list_assoc.
Qed.

(** C8 (as amended): [isSSOConfigured] returns true if and only if a
    credentials record exists with non-empty userid and password and an
    endpoint-configuration record exists with non-empty SSO URL and
    downstream API URL; when each persisted record is either absent or text
    that [JSON.parse] accepts, it returns false when either record is absent
    or one of those four fields is the empty string; and it never writes or
    removes a stored field nor touches the network. *)
Theorem isSSOConfigured_iff (h : Host) (w : World) :
  (fst (isSSOConfigured h w) = Ok true <->
   exists credentials config,
     stored_credentials h (store w) = Present credentials
     /\ stored_config h (store w) = Present config
     /\ userid credentials <> "" /\ password credentials <> ""
     /\ ssoUrl config <> "" /\ geminiApiUrl config <> "")
  /\ (well_formed (stored_credentials h (store w)) ->
      well_formed (stored_config h (store w)) ->
      stored_credentials h (store w) = Absent
      \/ stored_config h (store w) = Absent
      \/ (exists credentials, stored_credentials h (store w) = Present credentials
            /\ (userid credentials = "" \/ password credentials = ""))
      \/ (exists config, stored_config h (store w) = Present config
            /\ (ssoUrl config = "" \/ geminiApiUrl config = "")) ->
      fst (isSSOConfigured h w) = Ok false)
  /\ store (snd (isSSOConfigured h w)) = store w
  /\ mutations (trace (snd (isSSOConfigured h w))) = mutations (trace w)
  /\ network_calls (trace (snd (isSSOConfigured h w))) = network_calls (trace w).
Proof.
  rewrite isSSOConfigured_run.
  destruct (stored_credentials h (store w)) as [| credentials | ec];
    destruct (stored_config h (store w)) as [| config | eg];
    cbn [fst snd store trace well_formed];
    rewrite mutations_app, network_calls_app, !app_nil_r.
  all: split; [| split; [| done]].
  all: try (split; [intros [=] | by intros (? & ? & ? & ? & _)]).
  all: try (intros; done).
  - (* both records are there *)
    split.
    + intros [= Hb]. exists credentials, config.
      rewrite !andb_true_iff, !nonempty_neq in Hb.
      destruct Hb as (((Hu & Hp) & Hs) & Hg). done.
    + intros (c & g & [= <-] & [= <-] & Hu & Hp & Hs & Hg). f_equal.
      by rewrite !andb_true_iff, !nonempty_neq.
  - intros _ _ Hcases. f_equal. apply not_true_iff_false.
    rewrite !andb_true_iff, !nonempty_neq. intros (((Hu & Hp) & Hs) & Hg).
    destruct Hcases as [[=] | [[=] | [(c & [= <-] & [? | ?]) | (g & [= <-] & [? | ?])]]];
      done.
Qed.

Lemma isSSOConfigured_iff_witness :
  fst (isSSOConfigured offline_host (world_of configured_store)) = Ok true
  /\ fst (isSSOConfigured offline_host (world_of credentials_only_store)) = Ok false
  /\ store (snd (isSSOConfigured offline_host (world_of configured_store)))
     = configured_store.
Proof.
  destruct (isSSOConfigured_iff offline_host (world_of configured_store))
    as (Hiff & _ & Hstore & _).
  destruct (isSSOConfigured_iff offline_host (world_of credentials_only_store))
    as (_ & Hfalse & _).
  split; [| split; [| exact Hstore]].
  - apply Hiff. exists alice, vertex.
    split; [reflexivity |]. split; [reflexivity |].
    repeat split; discriminate.
  - apply Hfalse; [exact I | exact I |]. right. left. reflexivity.
Defined.

(** C8 as stated fails when a record is absent and the other is text that
    [JSON.parse] rejects: with no credentials stored and the configuration
    entry [{oops], [isSSOConfigured] does not return false, it throws the
    parse error. *)
Lemma presence_check_throws_beside_missing_credentials :
  malformed_config_store !! SSO_CREDENTIALS_KEY = None
  /\ stored_credentials offline_host malformed_config_store = Absent
  /\ malformed_config_store !! GEMINI_CONFIG_KEY = Some "{oops"
  /\ fst (isSSOConfigured offline_host (world_of malformed_config_store))
     = Throw syntax_error
  /\ fst (isSSOConfigured offline_host (world_of malformed_config_store)) <> Ok false.
Proof.
  repeat split; try reflexivity. vm_compute. discriminate.
Qed.

(** ** Persisted text that [JSON.parse] rejects *)

(** X16: the accessors do not catch the error of [JSON.parse]: with no valid
    token cached, a malformed record makes the orchestrator fail with that
    error, whether or not the other record is there, and no network call is
    made. *)
Lemma getValidAccessToken_malformed_record (h : Host) (w : World) (e : Error.t) :
  (forall token, ~ cache_holds (store w) (time_now h w) token) ->
  stored_credentials h (store w) = Malformed e
  \/ (well_formed (stored_credentials h (store w))
      /\ stored_config h (store w) = Malformed e) ->
  fst (getValidAccessToken h w) = Throw e
  /\ network_calls (trace (snd (getValidAccessToken h w))) = network_calls (trace w).
Proof.
  intros Hnone Hbad.
  destruct (getAccessToken_no_cache h w Hnone) as (w1 & Hget & Hc & Hg & Hnet).
  unfold getValidAccessToken, mbind, M_bind, bind. rewrite Hget. cbn [truthy].
  rewrite getSSOCredentials_run.
  unfold stored_credentials, stored_config in *. rewrite Hc.
  destruct Hbad as [-> | [Hwf Hbad]];
    [cbn [fst snd trace]; by rewrite network_calls_app, app_nil_r |].
  destruct (stored_record (JSON_parse_credentials h) (store w !! SSO_CREDENTIALS_KEY))
    as [| credentials | ec]; [| | done];
    rewrite getGeminiConfig_run; unfold stored_config; cbn [store]; rewrite Hg, Hbad;
    cbn [fst snd trace]; by rewrite !network_calls_app, !app_nil_r.
Qed.

(** X17: likewise the presence check throws the parse error instead of
    answering. *)
Lemma isSSOConfigured_malformed_record (h : Host) (w : World) (e : Error.t) :
  stored_credentials h (store w) = Malformed e
  \/ (well_formed (stored_credentials h (store w))
      /\ stored_config h (store w) = Malformed e) ->
  fst (isSSOConfigured h w) = Throw e.
Proof.
  rewrite isSSOConfigured_run. intros [-> | [Hwf ->]]; [done |].
  by destruct (stored_credentials h (store w)).
Qed.

Example malformed_config_throws :
  fst (getValidAccessToken offline_host (world_of malformed_config_store))
    = Throw syntax_error
  /\ fst (isSSOConfigured offline_host (world_of malformed_config_store))
    = Throw syntax_error.
Proof. split; reflexivity. Qed.

(** ** Worked examples *)

Example parseInt_examples :
  parseInt "1700000000000" = Some 1700000000000
  /\ parseInt "  -42px" = Some (-42)
  /\ parseInt "0x1F" = Some 31
  /\ parseInt "NaN" = None
  /\ parseInt "" = None
  /\ parseInt "1e+21" = Some 1
  /\ Number_toString (-305) = "-305"
  /\ Number_toString 0 = "0".
Proof. repeat split. Qed.

(** The login exchange answered with status 401 and the body
    [invalid credentials]: the message holds both. *)
Example unauthorized_message :
  fst (performSSOLogin "https://sso.example.com/login" alice
         (ticking_host (Ok unauthorized)) (world_of ∅))
  = Throw (new_Error "SSO login failed: 401 Unauthorized. Details: invalid credentials")
  /\ contains "SSO login failed: 401 Unauthorized. Details: invalid credentials" "401"
  /\ contains "SSO login failed: 401 Unauthorized. Details: invalid credentials"
       "invalid credentials".
Proof.
  split; [reflexivity |].
  split; [by exists "SSO login failed: ", " Unauthorized. Details: invalid credentials" |].
  by exists "SSO login failed: 401 Unauthorized. Details: ", "".
Qed.

(** With both records stored and no token cached, the orchestrator logs in
    once and returns the new token. *)
Example getValidAccessToken_logs_in :
  fst (getValidAccessToken (ticking_host (Ok (granted (bearer "tok-123" 3600))))
         (world_of configured_store))
  = Ok "tok-123"
  /\ length (network_calls
       (trace (snd (getValidAccessToken
                      (ticking_host (Ok (granted (bearer "tok-123" 3600))))
                      (world_of configured_store))))) = 1%nat.
Proof. split; reflexivity. Qed.

(** * Further properties of the module *)

(** ** The token cache, read and written *)

Lemma number_ge_antitone (t t' : Z) (x : option Z) :
  t' <= t -> number_ge t x = false -> number_ge t' x = false.
Proof. destruct x as [x|]; [cbn; lia | done]. Qed.

Lemma number_ge_monotone (t t' : Z) (x : option Z) :
  t <= t' -> number_ge t x = true -> number_ge t' x = true.
Proof. destruct x as [x|]; [cbn; lia | done]. Qed.

(** X1: [getAccessToken] returns a token exactly when the cache holds it: the
    value returned is the stored token field, it is never the empty string,
    and the expiry field is there, not empty and not reached. *)
Theorem getAccessToken_returns_iff_cached (h : Host) (w : World) (token : string) :
  fst (getAccessToken h w) = Ok (Some token)
  <-> cache_holds (store w) (time_now h w) token.
Proof.
  split.
  - rewrite getAccessToken_run. cbn zeta.
    destruct (truthy (store w !! SSO_TOKEN_KEY)) eqn:Ht;
      [destruct (truthy (store w !! SSO_TOKEN_EXPIRY_KEY)) eqn:He |];
      cbn [negb orb]; [| intros [=] ..].
    destruct (number_ge _ _) eqn:Hge; cbn [fst]; [intros [=] |].
    intros [= Htoken].
    destruct (truthy_Some _ He) as (expiry & Hexpiry & Hne).
    rewrite Htoken in Ht. rewrite Hexpiry in Hge.
    split; [done |]. split; [done |]. by exists expiry.
  - intros (Ht & Hnt & expiry & He & Hne & Hfresh).
    by rewrite (getAccessToken_both_fields h w token expiry Ht Hnt He Hne), Hfresh.
Qed.

Lemma getAccessToken_returns_iff_cached_witness :
  fst (getAccessToken offline_host (world_of corrupt_expiry_store)) = Ok (Some "abc")
  /\ cache_holds (store (written offline_host (bearer "tok-123" 3600)))
       (time_now offline_host (written offline_host (bearer "tok-123" 3600))) "tok-123".
Proof.
  split.
  - apply (getAccessToken_returns_iff_cached offline_host
             (world_of corrupt_expiry_store) "abc").
    split; [reflexivity |]. split; [reflexivity |].
    exists "NaN". repeat split; reflexivity.
  - apply (getAccessToken_returns_iff_cached offline_host
             (written offline_host (bearer "tok-123" 3600)) "tok-123").
    reflexivity.
Defined.

(** X2: for a given store the moments at which the token is served form an
    initial stretch of time: a token served at one moment is served at every
    earlier one, and a read that answers absent answers absent at every later
    one. *)
Theorem token_validity_is_an_initial_stretch (h : Host) (w w' : World) :
  store w' = store w ->
  (forall token, time_now h w' <= time_now h w ->
     fst (getAccessToken h w) = Ok (Some token) ->
     fst (getAccessToken h w') = Ok (Some token))
  /\ (time_now h w <= time_now h w' ->
      fst (getAccessToken h w) = Ok None ->
      fst (getAccessToken h w') = Ok None).
Proof.
  intros Hstore. rewrite !getAccessToken_run, Hstore. cbn zeta.
  destruct (truthy (store w !! SSO_TOKEN_KEY)) eqn:Ht; [| by split].
  destruct (truthy (store w !! SSO_TOKEN_EXPIRY_KEY)); cbn [negb orb fst];
    [| by split].
  split.
  - intros token Hle.
    destruct (number_ge (time_now h w) _) eqn:Hge; cbn [fst]; [intros [=] |].
    by rewrite (number_ge_antitone _ _ _ Hle Hge).
  - intros Hle.
    destruct (number_ge (time_now h w) _) eqn:Hge; cbn [fst].
    + by rewrite (number_ge_monotone _ _ _ Hle Hge).
    + intros [= Hnone]. by rewrite Hnone in Ht.
Qed.

Lemma token_validity_is_an_initial_stretch_witness :
  fst (getAccessToken offline_host (written offline_host (bearer "tok-123" 3600)))
    = Ok (Some "tok-123")
  /\ fst (getAccessToken hourly_host
            (later 3 (written hourly_host (bearer "tok-123" 3600))))
     = Ok None.
Proof.
  destruct (token_validity_is_an_initial_stretch offline_host
              (later 3 (written offline_host (bearer "tok-123" 3600)))
              (written offline_host (bearer "tok-123" 3600)) eq_refl)
    as (Hearlier & _).
  destruct (token_validity_is_an_initial_stretch hourly_host
              (written hourly_host (bearer "tok-123" 3600))
              (later 3 (written hourly_host (bearer "tok-123" 3600))) eq_refl)
    as (_ & Hlater).
  split.
  - apply Hearlier; [vm_compute; discriminate | reflexivity].
  - apply Hlater; [vm_compute; discriminate | reflexivity].
Defined.

(** X3: the expiry check is lazy and final.  Once a read has found the token
    expired, both fields are gone: every later read of that store answers
    absent after its two storage reads, without consulting the clock and
    without writing or removing anything. *)
Theorem expired_read_is_final (h : Host) (w w2 : World) (token expiry : string) :
  store w !! SSO_TOKEN_KEY = Some token -> nonempty token = true ->
  store w !! SSO_TOKEN_EXPIRY_KEY = Some expiry -> nonempty expiry = true ->
  number_ge (time_now h w) (parseInt expiry) = true ->
  store w2 = store (snd (getAccessToken h w)) ->
  getAccessToken h w2 =
    (Ok None,
     {| store := store w2;
        trace := trace w2 ++ [StorageGet SSO_TOKEN_KEY; StorageGet SSO_TOKEN_EXPIRY_KEY];
        ticks := ticks w2 |}).
Proof.
  intros Ht Hnt He Hne Hexpired Hstore.
  rewrite (getAccessToken_both_fields h w token expiry Ht Hnt He Hne), Hexpired
    in Hstore.
  cbn [snd store] in Hstore.
  rewrite getAccessToken_run, Hstore.
  rewrite lookup_delete_ne, lookup_delete_eq by done. reflexivity.
Qed.

Lemma expired_read_is_final_witness :
  fst (getAccessToken hourly_host
         (snd (getAccessToken hourly_host (written hourly_host (bearer "tok-123" 3600)))))
  = Ok None
  /\ ticks (snd (getAccessToken hourly_host
                   (snd (getAccessToken hourly_host
                           (written hourly_host (bearer "tok-123" 3600))))))
     = 2%nat.
Proof.
  rewrite (expired_read_is_final hourly_host
             (written hourly_host (bearer "tok-123" 3600))
             (snd (getAccessToken hourly_host (written hourly_host (bearer "tok-123" 3600))))
             "tok-123" "1700003300000" eq_refl eq_refl eq_refl eq_refl eq_refl eq_refl).
  split; reflexivity.
Defined.

(** X4: [clearTokens] removes the token and the expiry field, whatever the
    store holds, and nothing else: every other entry, and with it the stored
    credentials and configuration, is as before; clearing again changes
    nothing more, and the read that follows answers absent. *)
Theorem clearTokens_clears_only_the_cache (h : Host) (w : World) :
  fst (clearTokens h w) = Ok tt
  /\ store (snd (clearTokens h w)) !! SSO_TOKEN_KEY = None
  /\ store (snd (clearTokens h w)) !! SSO_TOKEN_EXPIRY_KEY = None
  /\ (forall key, key <> SSO_TOKEN_KEY -> key <> SSO_TOKEN_EXPIRY_KEY ->
        store (snd (clearTokens h w)) !! key = store w !! key)
  /\ stored_credentials h (store (snd (clearTokens h w))) = stored_credentials h (store w)
  /\ stored_config h (store (snd (clearTokens h w))) = stored_config h (store w)
  /\ store (snd (clearTokens h (snd (clearTokens h w)))) = store (snd (clearTokens h w))
  /\ fst (getAccessToken h (snd (clearTokens h w))) = Ok None.
Proof.
  assert (Hrun : forall w0, clearTokens h w0 =
            (Ok tt,
             {| store := delete SSO_TOKEN_EXPIRY_KEY (delete SSO_TOKEN_KEY (store w0));
                trace := trace w0 ++ [StorageRemove SSO_TOKEN_KEY;
                                      StorageRemove SSO_TOKEN_EXPIRY_KEY];
                ticks := ticks w0 |})).
  { intros w0. unfold clearTokens. unfold_M. by list_assoc. }
  rewrite !Hrun. cbn [fst snd store].
  split; [done |].
  split; [by rewrite lookup_delete_ne, lookup_delete_eq |].
  split; [apply lookup_delete_eq |].
  split; [intros key H1 H2; by rewrite !lookup_delete_ne |].
  unfold stored_credentials, stored_config.
  split; [by rewrite !lookup_delete_ne |].
  split; [by rewrite !lookup_delete_ne |].
  split.
  - apply map_eq. intros key.
    destruct (decide (key = SSO_TOKEN_EXPIRY_KEY)) as [-> | H2];
      [by rewrite !lookup_delete_eq |].
    rewrite (lookup_delete_ne _ SSO_TOKEN_EXPIRY_KEY key) by done.
    destruct (decide (key = SSO_TOKEN_KEY)) as [-> | H1];
      [by rewrite lookup_delete_eq, lookup_delete_ne, lookup_delete_eq |].
    by rewrite !lookup_delete_ne.
  - rewrite getAccessToken_run. cbn [store].
    by rewrite lookup_delete_ne, lookup_delete_eq.
Qed.

(** X5: [setAccessToken] overwrites whatever the cache held: afterwards the
    token field is the new [access_token] and the expiry field holds
    non-empty text; when [expires_in] is a whole number of seconds and [now],
    [expires_in*1000], [now + expires_in*1000] and
    [now + expires_in*1000 - 300000] are safe integers, [parseInt] reads that
    text back as exactly [now + expires_in*1000 - 300000]; every other entry
    of the store, and with it the stored credentials and configuration, is as
    before. *)
Theorem setAccessToken_overwrites_the_cache (h : Host) (w : World)
    (tokenResponse : SSOTokenResponse.t) :
  store (snd (setAccessToken tokenResponse h w)) !! SSO_TOKEN_KEY
    = Some (access_token tokenResponse)
  /\ (exists text,
        store (snd (setAccessToken tokenResponse h w)) !! SSO_TOKEN_EXPIRY_KEY = Some text
        /\ nonempty text = true
        /\ (exact_expiry (time_now h w) (expires_in tokenResponse) ->
            parseInt text
            = Some (time_now h w + expires_in tokenResponse * 1000 - 300000)))
  /\ (forall key, key <> SSO_TOKEN_KEY -> key <> SSO_TOKEN_EXPIRY_KEY ->
        store (snd (setAccessToken tokenResponse h w)) !! key = store w !! key)
  /\ stored_credentials h (store (snd (setAccessToken tokenResponse h w)))
     = stored_credentials h (store w)
  /\ stored_config h (store (snd (setAccessToken tokenResponse h w)))
     = stored_config h (store w).
Proof.
  rewrite setAccessToken_run. cbn [snd store].
  split; [by rewrite lookup_insert_ne, lookup_insert_eq |].
  split.
  { eexists. split; [apply lookup_insert_eq |].
    split; [apply Number_toString_nonempty | intros _; apply parseInt_Number_toString]. }
  split; [intros key H1 H2; by rewrite !lookup_insert_ne |].
  unfold stored_credentials, stored_config.
  split; by rewrite !lookup_insert_ne.
Qed.

Lemma setAccessToken_overwrites_the_cache_witness :
  store (written offline_host (bearer "tok-123" 3600)) !! SSO_TOKEN_KEY = Some "tok-123"
  /\ exists text,
       store (written offline_host (bearer "tok-123" 3600)) !! SSO_TOKEN_EXPIRY_KEY
         = Some text
       /\ parseInt text = Some (1700000000000 + 3600 * 1000 - 300000).
Proof.
  destruct (setAccessToken_overwrites_the_cache offline_host (world_of ∅)
              (bearer "tok-123" 3600))
    as (Htoken & (text & Hexpiry & _ & Hparse) & _).
  split; [exact Htoken |].
  exists text. split; [exact Hexpiry |]. apply Hparse. in_range.
Defined.

(** ** The persisted records *)

(** X6: the accessors never hand absent or empty text to [JSON.parse]: with
    no entry, or an entry that is the empty string, [getSSOCredentials] and
    [getGeminiConfig] answer [null] whatever the host's parser would do with
    such text; and on every store they only read their own entry, so the store
    is left as it is. *)
Theorem accessors_answer_null_without_parsing (h : Host) (w : World) :
  (store w !! SSO_CREDENTIALS_KEY = None \/ store w !! SSO_CREDENTIALS_KEY = Some "" ->
   fst (getSSOCredentials h w) = Ok None)
  /\ (store w !! GEMINI_CONFIG_KEY = None \/ store w !! GEMINI_CONFIG_KEY = Some "" ->
      fst (getGeminiConfig h w) = Ok None)
  /\ snd (getSSOCredentials h w)
     = {| store := store w; trace := trace w ++ [StorageGet SSO_CREDENTIALS_KEY];
          ticks := ticks w |}
  /\ snd (getGeminiConfig h w)
     = {| store := store w; trace := trace w ++ [StorageGet GEMINI_CONFIG_KEY];
          ticks := ticks w |}.
Proof.
  rewrite getSSOCredentials_run, getGeminiConfig_run.
  unfold stored_credentials, stored_config. cbn [fst snd].
  split; [by intros [-> | ->] |]. split; [by intros [-> | ->] | done].
Qed.

Lemma accessors_answer_null_without_parsing_witness :
  fst (getSSOCredentials offline_host (world_of malformed_config_store)) = Ok None
  /\ fst (getGeminiConfig offline_host (world_of credentials_only_store)) = Ok None.
Proof.
  destruct (accessors_answer_null_without_parsing offline_host
              (world_of malformed_config_store)) as (Hc & _).
  destruct (accessors_answer_null_without_parsing offline_host
              (world_of credentials_only_store)) as (_ & Hg & _).
  split; [apply Hc | apply Hg]; left; reflexivity.
Defined.

(** What a setter leaves in the store. *)
Lemma setSSOCredentials_run (stringify : SSOCredentials.t -> string)
    (credentials : SSOCredentials.t) (h : Host) (w : World) :
  setSSOCredentials stringify credentials h w =
    (Ok tt,
     {| store := <[SSO_CREDENTIALS_KEY := stringify credentials]> (store w);
        trace := trace w ++ [StorageSet SSO_CREDENTIALS_KEY (stringify credentials)];
        ticks := ticks w |}).
Proof. reflexivity. Qed.

Lemma setGeminiConfig_run (stringify : GeminiAPIConfig.t -> string)
    (config : GeminiAPIConfig.t) (h : Host) (w : World) :
  setGeminiConfig stringify config h w =
    (Ok tt,
     {| store := <[GEMINI_CONFIG_KEY := stringify config]> (store w);
        trace := trace w ++ [StorageSet GEMINI_CONFIG_KEY (stringify config)];
        ticks := ticks w |}).
Proof. reflexivity. Qed.

(** X7: credentials written by [setSSOCredentials] are read back by
    [getSSOCredentials], provided the host's [JSON.parse] reads the text of
    [JSON.stringify] back as the record (the text of an object is never
    empty); the write replaces any earlier credentials and touches neither
    the stored configuration nor the token cache. *)
Theorem setSSOCredentials_then_get (stringify : SSOCredentials.t -> string)
    (h : Host) (w w2 : World) (credentials : SSOCredentials.t) :
  nonempty (stringify credentials) = true ->
  JSON_parse_credentials h (stringify credentials) = Ok (Some credentials) ->
  store w2 = store (snd (setSSOCredentials stringify credentials h w)) ->
  fst (getSSOCredentials h w2) = Ok (Some credentials)
  /\ stored_config h (store w2) = stored_config h (store w)
  /\ store w2 !! SSO_TOKEN_KEY = store w !! SSO_TOKEN_KEY
  /\ store w2 !! SSO_TOKEN_EXPIRY_KEY = store w !! SSO_TOKEN_EXPIRY_KEY.
Proof.
  intros Hne Hparse Hstore. rewrite setSSOCredentials_run in Hstore.
  cbn [snd store] in Hstore.
  rewrite getSSOCredentials_run. unfold stored_credentials, stored_config.
  rewrite Hstore, lookup_insert_eq, !lookup_insert_ne by done.
  destruct (stringify credentials) as [|c text]; [discriminate Hne |].
  cbn [stored_record fst]. by rewrite Hparse.
Qed.

Lemma setSSOCredentials_then_get_witness :
  fst (getSSOCredentials (host_knowing alice_blank_otp vertex (Throw failed_to_fetch))
         (snd (setSSOCredentials credentials_text alice_blank_otp
                 (host_knowing alice_blank_otp vertex (Throw failed_to_fetch))
                 (world_of configured_store))))
  = Ok (Some alice_blank_otp).
Proof.
  apply (setSSOCredentials_then_get credentials_text
           (host_knowing alice_blank_otp vertex (Throw failed_to_fetch))
           (world_of configured_store)); reflexivity.
Defined.

(** X8: likewise a configuration written by [setGeminiConfig] is read back
    by [getGeminiConfig], and the write touches neither the stored credentials
    nor the token cache. *)
Theorem setGeminiConfig_then_get (stringify : GeminiAPIConfig.t -> string)
    (h : Host) (w w2 : World) (config : GeminiAPIConfig.t) :
  nonempty (stringify config) = true ->
  JSON_parse_config h (stringify config) = Ok (Some config) ->
  store w2 = store (snd (setGeminiConfig stringify config h w)) ->
  fst (getGeminiConfig h w2) = Ok (Some config)
  /\ stored_credentials h (store w2) = stored_credentials h (store w)
  /\ store w2 !! SSO_TOKEN_KEY = store w !! SSO_TOKEN_KEY
  /\ store w2 !! SSO_TOKEN_EXPIRY_KEY = store w !! SSO_TOKEN_EXPIRY_KEY.
Proof.
  intros Hne Hparse Hstore. rewrite setGeminiConfig_run in Hstore.
  cbn [snd store] in Hstore.
  rewrite getGeminiConfig_run. unfold stored_credentials, stored_config.
  rewrite Hstore, lookup_insert_eq, !lookup_insert_ne by done.
  destruct (stringify config) as [|c text]; [discriminate Hne |].
  cbn [stored_record fst]. by rewrite Hparse.
Qed.

Lemma setGeminiConfig_then_get_witness :
  fst (getGeminiConfig (host_knowing alice vertex (Throw failed_to_fetch))
         (snd (setGeminiConfig config_text vertex
                 (host_knowing alice vertex (Throw failed_to_fetch))
                 (world_of token_only_store))))
  = Ok (Some vertex).
Proof.
  apply (setGeminiConfig_then_get config_text
           (host_knowing alice vertex (Throw failed_to_fetch))
           (world_of token_only_store)); reflexivity.
Defined.

(** ** The login exchange, outcome by outcome *)

Lemma performSSOLogin_outcome (ssoUrl : string) (credentials : SSOCredentials.t)
    (h : Host) (w : World) :
  performSSOLogin ssoUrl credentials h w =
    let request := NetworkFetch ssoUrl (requestInit credentials) in
    let report := fun e : Error.t =>
      if String.eqb (Error.message e) "Failed to fetch"
      then new_Error (network_error_message ssoUrl) else e in
    match network h ssoUrl (requestInit credentials) with
    | Throw e =>
        (Throw (report e),
         {| store := store w; trace := trace w ++ [request]; ticks := ticks w |})
    | Ok response =>
        if Response.ok response then
          match Response.json response with
          | Throw e =>
              (Throw (report e),
               {| store := store w; trace := trace w ++ [request; BodyRead];
                  ticks := ticks w |})
          | Ok tokenResponse =>
              let expiryTime :=
                time_now h w + expires_in tokenResponse * 1000 - 300000 in
              (Ok tokenResponse,
               {| store := <[SSO_TOKEN_EXPIRY_KEY := Number_toString expiryTime]>
                             (<[SSO_TOKEN_KEY := access_token tokenResponse]> (store w));
                  trace := trace w ++
                    [request; BodyRead; ClockRead;
                     StorageSet SSO_TOKEN_KEY (access_token tokenResponse);
                     StorageSet SSO_TOKEN_EXPIRY_KEY (Number_toString expiryTime)];
                  ticks := S (ticks w) |})
          end
        else
          (Throw (new_Error (login_failed_message response (error_details response))),
           {| store := store w; trace := trace w ++ [request; BodyRead];
              ticks := ticks w |})
    end.
Proof.
  rewrite performSSOLogin_run, performSSOLogin_try_run. cbn zeta.
  destruct (network h ssoUrl (requestInit credentials)) as [response | e]; [| done].
  destruct (Response.ok response); [by destruct (Response.json response) |].
  unfold new_Error. cbn [Error.message]. by rewrite login_failed_not_transport.
Qed.



(** X10: the [catch] block covers the reading of a successful response too.
    When the status is a success but [response.json()] rejects, no token is
    stored and the rejection is thrown again as it is, unless its message is
    [Failed to fetch]: then the caller gets the network diagnostic, although
    the endpoint was reached and answered. *)
Theorem unreadable_success_body (h : Host) (w : World) (ssoUrl : string)
    (credentials : SSOCredentials.t) (response : Response.t) (e : Error.t) :
  network h ssoUrl (requestInit credentials) = Ok response ->
  Response.ok response = true ->
  Response.json response = Throw e ->
  (Error.message e = "Failed to fetch" ->
   fst (performSSOLogin ssoUrl credentials h w)
   = Throw (new_Error (network_error_message ssoUrl)))
  /\ (Error.message e <> "Failed to fetch" ->
      fst (performSSOLogin ssoUrl credentials h w) = Throw e)
  /\ store (snd (performSSOLogin ssoUrl credentials h w)) = store w.
Proof.
  intros Hfetch Hok Hjson.
  rewrite performSSOLogin_outcome, Hfetch, Hok, Hjson. cbn [fst snd store].
  split; [by intros -> |]. split; [| done].
  by intros ->%String.eqb_neq.
Qed.

Lemma unreadable_success_body_witness :
  fst (performSSOLogin "https://sso.example.com/login" alice
         (ticking_host (Ok cut_off)) (world_of ∅))
    = Throw (new_Error (network_error_message "https://sso.example.com/login"))
  /\ fst (performSSOLogin "https://sso.example.com/login" alice
            (ticking_host (Ok garbled)) (world_of ∅))
     = Throw syntax_error.
Proof.
  destruct (unreadable_success_body (ticking_host (Ok cut_off)) (world_of ∅)
              "https://sso.example.com/login" alice cut_off failed_to_fetch
              eq_refl eq_refl eq_refl) as (Hnet & _).
  destruct (unreadable_success_body (ticking_host (Ok garbled)) (world_of ∅)
              "https://sso.example.com/login" alice garbled syntax_error
              eq_refl eq_refl eq_refl) as (_ & Hraw & _).
  split; [apply Hnet; reflexivity | apply Hraw; discriminate].
Defined.

(** ** The orchestrator on the refresh path *)

Lemma performSSOLogin_network_calls (ssoUrl : string) (credentials : SSOCredentials.t)
    (h : Host) (w : World) :
  network_calls (trace (snd (performSSOLogin ssoUrl credentials h w)))
  = network_calls (trace w) ++ [(ssoUrl, requestInit credentials)].
Proof.
  rewrite performSSOLogin_outcome. cbn zeta.
  destruct (network h ssoUrl (requestInit credentials)) as [response | e];
    [destruct (Response.ok response);
       [destruct (Response.json response) as [tokenResponse | e] |] |];
    cbn [snd trace]; by rewrite network_calls_app.
Qed.

(** After a read that answered absent no token is valid at any time, and the
    records and the network are as before. *)
Lemma getAccessToken_absent (h : Host) (w : World) :
  fst (getAccessToken h w) = Ok None ->
  (forall t token, ~ cache_holds (store (snd (getAccessToken h w))) t token)
  /\ store (snd (getAccessToken h w)) !! SSO_CREDENTIALS_KEY
     = store w !! SSO_CREDENTIALS_KEY
  /\ store (snd (getAccessToken h w)) !! GEMINI_CONFIG_KEY
     = store w !! GEMINI_CONFIG_KEY
  /\ network_calls (trace (snd (getAccessToken h w))) = network_calls (trace w).
Proof.
  rewrite getAccessToken_run. cbn zeta.
  destruct (truthy (store w !! SSO_TOKEN_KEY)) eqn:Ht;
    [destruct (truthy (store w !! SSO_TOKEN_EXPIRY_KEY)) eqn:He |]; cbn [negb orb].
  1: destruct (number_ge _ _) eqn:Hge.
  all: cbn [fst snd store trace]; intros Hnone;
    rewrite network_calls_app, app_nil_r, ?lookup_delete_ne by done.
  all: split; [| done].
  - intros t token (Htoken & _). by rewrite lookup_delete_ne, lookup_delete_eq in Htoken.
  - injection Hnone as Hnone. by rewrite Hnone in Ht.
  - intros t token (_ & _ & expiry & Hexpiry & Hne & _).
    rewrite Hexpiry in He. unfold nonempty in Hne. congruence.
  - intros t token (Htoken & Hnt & _).
    rewrite Htoken in Ht. unfold nonempty in Hnt. congruence.
Qed.

(** The orchestrator once the cache has answered absent. *)
Lemma getValidAccessToken_after_absent (h : Host) (w : World) :
  fst (getAccessToken h w) = Ok None ->
  getValidAccessToken h w =
    let w1 := snd (getAccessToken h w) in
    let read1 := {| store := store w1;
                    trace := trace w1 ++ [StorageGet SSO_CREDENTIALS_KEY];
                    ticks := ticks w1 |} in
    let read2 := {| store := store w1;
                    trace := trace w1 ++ [StorageGet SSO_CREDENTIALS_KEY;
                                          StorageGet GEMINI_CONFIG_KEY];
                    ticks := ticks w1 |} in
    match stored_credentials h (store w), stored_config h (store w) with
    | Malformed e, _ => (Throw e, read1)
    | _, Malformed e => (Throw e, read2)
    | Present credentials, Present config =>
        match performSSOLogin (ssoUrl config) credentials h read2 with
        | (Ok tokenResponse, w') => (Ok (access_token tokenResponse), w')
        | (Throw e, w') => (Throw e, w')
        end
    | _, _ => (Throw (new_Error not_configured_message), read2)
    end.
Proof.
  intros Hnone.
  destruct (getAccessToken_absent h w Hnone) as (_ & Hc & Hg & _).
  unfold getValidAccessToken, mbind, M_bind, bind.
  destruct (getAccessToken h w) as [r w1]. cbn [fst snd] in *. subst r.
  cbn [truthy]. rewrite getSSOCredentials_run.
  unfold stored_credentials, stored_config in *. rewrite Hc.
  destruct (stored_record (JSON_parse_credentials h) (store w !! SSO_CREDENTIALS_KEY))
    as [| credentials | e]; [| | done];
    rewrite getGeminiConfig_run; unfold stored_config; cbn [store trace ticks];
    rewrite Hg;
    destruct (stored_record (JSON_parse_config h) (store w !! GEMINI_CONFIG_KEY))
      as [| config | e]; list_assoc; done.
Qed.

Lemma no_cache_reads_absent (h : Host) (w : World) :
  (forall token, ~ cache_holds (store w) (time_now h w) token) ->
  fst (getAccessToken h w) = Ok None.
Proof.
  intros Hnone. by destruct (getAccessToken_no_cache h w Hnone) as (w1 & -> & _).
Qed.

(** X11: with no valid token cached and both records stored,
    [getValidAccessToken] makes exactly one request, to the configured
    [ssoUrl] with the stored credentials, whatever its outcome (there is no
    retry), and hands the login's outcome on as it is: the [access_token] of
    the response, be it empty, or the very error the login threw. *)
Theorem getValidAccessToken_refreshes_once (h : Host) (w : World)
    (credentials : SSOCredentials.t) (config : GeminiAPIConfig.t) :
  (forall token, ~ cache_holds (store w) (time_now h w) token) ->
  stored_credentials h (store w) = Present credentials ->
  stored_config h (store w) = Present config ->
  fst (getValidAccessToken h w)
    = match fst (performSSOLogin (ssoUrl config) credentials h w) with
      | Ok tokenResponse => Ok (access_token tokenResponse)
      | Throw e => Throw e
      end
  /\ network_calls (trace (snd (getValidAccessToken h w)))
     = network_calls (trace w) ++ [(ssoUrl config, requestInit credentials)].
Proof.
  intros Hnone Hc Hg.
  pose proof (no_cache_reads_absent h w Hnone) as Habsent.
  destruct (getAccessToken_absent h w Habsent) as (_ & _ & _ & Hnet).
  rewrite (getValidAccessToken_after_absent h w Habsent), Hc, Hg. cbn zeta.
  set (read2 := {| store := _; trace := _; ticks := _ |}).
  assert (Hfst : fst (performSSOLogin (ssoUrl config) credentials h read2)
                 = fst (performSSOLogin (ssoUrl config) credentials h w)).
  { rewrite !performSSOLogin_outcome. cbn zeta.
    destruct (network h _ _) as [response | e]; [| done].
    destruct (Response.ok response); [| done].
    by destruct (Response.json response). }
  pose proof (performSSOLogin_network_calls (ssoUrl config) credentials h read2) as Hcalls.
  rewrite <- Hfst.
  destruct (performSSOLogin (ssoUrl config) credentials h read2) as [[tr | e] w'];
    cbn [fst snd] in *; (split; [done |]); rewrite Hcalls; subst read2; cbn [trace];
    by rewrite network_calls_app, app_nil_r, Hnet.
Qed.

Lemma getValidAccessToken_refreshes_once_witness :
  fst (getValidAccessToken (host_knowing alice vertex (Ok (granted (bearer "" 3600))))
         (world_of (store_knowing alice)))
    = Ok ""
  /\ fst (getValidAccessToken (host_knowing alice vertex (Ok unauthorized))
            (world_of (store_knowing alice)))
     = Throw (new_Error
                "SSO login failed: 401 Unauthorized. Details: invalid credentials")
  /\ length (network_calls
       (trace (snd (getValidAccessToken (host_knowing alice vertex (Ok unauthorized))
                      (world_of (store_knowing alice)))))) = 1%nat.
Proof.
  assert (Hnone : forall (h : Host) token,
            ~ cache_holds (store (world_of (store_knowing alice)))
                (time_now h (world_of (store_knowing alice))) token).
  { intros h token (Htoken & _). vm_compute in Htoken. discriminate Htoken. }
  destruct (getValidAccessToken_refreshes_once
              (host_knowing alice vertex (Ok (granted (bearer "" 3600))))
              (world_of (store_knowing alice)) alice vertex (Hnone _) eq_refl eq_refl)
    as (Hempty & _).
  destruct (getValidAccessToken_refreshes_once
              (host_knowing alice vertex (Ok unauthorized))
              (world_of (store_knowing alice)) alice vertex (Hnone _) eq_refl eq_refl)
    as (Hfail & Hcalls).
  split; [exact Hempty |]. split; [exact Hfail |]. by rewrite Hcalls.
Defined.

Lemma getValidAccessToken_cached_run (h : Host) (w : World) (token : string) :
  cache_holds (store w) (time_now h w) token ->
  getValidAccessToken h w =
    (Ok token,
     {| store := store w;
        trace := trace w ++ [StorageGet SSO_TOKEN_KEY; StorageGet SSO_TOKEN_EXPIRY_KEY;
                             ClockRead];
        ticks := S (ticks w) |}).
Proof.
  intros (Ht & Hnt & expiry & He & Hne & Hfresh).
  unfold getValidAccessToken, mbind, M_bind, bind.
  rewrite (getAccessToken_both_fields h w token expiry Ht Hnt He Hne), Hfresh.
  unfold nonempty in Hnt. by rewrite Hnt.
Qed.

Lemma performSSOLogin_failure_store (ssoUrl : string) (credentials : SSOCredentials.t)
    (h : Host) (w : World) (e : Error.t) :
  fst (performSSOLogin ssoUrl credentials h w) = Throw e ->
  store (snd (performSSOLogin ssoUrl credentials h w)) = store w.
Proof.
  rewrite performSSOLogin_outcome. cbn zeta.
  destruct (network h ssoUrl (requestInit credentials)) as [response | e0]; [| done].
  destruct (Response.ok response); [| done].
  by destruct (Response.json response).
Qed.

(** X12: a refresh fills the cache for the calls that follow.  When
    [getValidAccessToken] finds no valid token and the login succeeds with a
    non-empty [access_token] and with [expires_in = E], a whole number of
    seconds, at wall-clock time [T], where [T], [E*1000], [T + E*1000] and
    [T + E*1000 - 300000] are safe integers, it returns that token, and a
    second call made on the resulting store at a time (a safe integer)
    strictly before [T + E*1000 - 300000] returns the same token from the
    cache without any further request. *)
Theorem refreshed_token_is_served_from_cache (h : Host) (w w2 : World)
    (credentials : SSOCredentials.t) (config : GeminiAPIConfig.t)
    (response : Response.t) (tokenResponse : SSOTokenResponse.t) :
  (forall token, ~ cache_holds (store w) (time_now h w) token) ->
  stored_credentials h (store w) = Present credentials ->
  stored_config h (store w) = Present config ->
  network h (ssoUrl config) (requestInit credentials) = Ok response ->
  Response.ok response = true ->
  Response.json response = Ok tokenResponse ->
  nonempty (access_token tokenResponse) = true ->
  exact_expiry (time_now h (snd (getAccessToken h w))) (expires_in tokenResponse) ->
  safe_integer (time_now h w2) ->
  store w2 = store (snd (getValidAccessToken h w)) ->
  time_now h w2 < time_now h (snd (getAccessToken h w))
                  + expires_in tokenResponse * 1000 - 300000 ->
  fst (getValidAccessToken h w) = Ok (access_token tokenResponse)
  /\ fst (getValidAccessToken h w2) = Ok (access_token tokenResponse)
  /\ network_calls (trace (snd (getValidAccessToken h w2))) = network_calls (trace w2).
Proof.
  intros Hnone Hc Hg Hfetch Hok Hjson Hne _ _ Hstore Hearly.
  pose proof (no_cache_reads_absent h w Hnone) as Habsent.
  rewrite (getValidAccessToken_after_absent h w Habsent), Hc, Hg in Hstore |- *.
  cbn zeta in Hstore |- *.
  rewrite performSSOLogin_outcome, Hfetch, Hok, Hjson in Hstore |- *.
  cbn [fst snd store ticks time_now] in Hstore |- *.
  split; [done |].
  assert (Hcache : cache_holds (store w2) (time_now h w2) (access_token tokenResponse)).
  { rewrite Hstore. split; [by rewrite lookup_insert_ne, lookup_insert_eq |].
    split; [done |]. eexists. split; [apply lookup_insert_eq |].
    split; [apply Number_toString_nonempty |].
    rewrite parseInt_Number_toString. cbn [number_ge].
    unfold time_now in Hearly |- *. cbn [ticks]. lia. }
  rewrite (getValidAccessToken_cached_run h w2 _ Hcache). cbn [fst snd trace].
  split; [done |]. by rewrite network_calls_app, app_nil_r.
Qed.

Lemma refreshed_token_is_served_from_cache_witness :
  fst (getValidAccessToken (host_knowing alice vertex (Ok (granted (bearer "tok-123" 3600))))
         (world_of (store_knowing alice)))
    = Ok "tok-123"
  /\ network_calls
       (trace (snd (getValidAccessToken
                      (host_knowing alice vertex (Ok (granted (bearer "tok-123" 3600))))
                      (world_of (store (snd (getValidAccessToken
                         (host_knowing alice vertex (Ok (granted (bearer "tok-123" 3600))))
                         (world_of (store_knowing alice)))))))))
     = [].
Proof.
  assert (Hnone : forall token,
            ~ cache_holds (store (world_of (store_knowing alice)))
                (time_now (host_knowing alice vertex (Ok (granted (bearer "tok-123" 3600))))
                   (world_of (store_knowing alice))) token).
  { intros token (Htoken & _). vm_compute in Htoken. discriminate Htoken. }
  destruct (refreshed_token_is_served_from_cache
              (host_knowing alice vertex (Ok (granted (bearer "tok-123" 3600))))
              (world_of (store_knowing alice))
              (world_of (store (snd (getValidAccessToken
                 (host_knowing alice vertex (Ok (granted (bearer "tok-123" 3600))))
                 (world_of (store_knowing alice))))))
              alice vertex (granted (bearer "tok-123" 3600)) (bearer "tok-123" 3600)
              Hnone eq_refl eq_refl eq_refl eq_refl eq_refl eq_refl
              ltac:(in_range) ltac:(in_range) eq_refl eq_refl)
    as (Hfirst & _ & Hcalls).
  split; [exact Hfirst | exact Hcalls].
Defined.

(** X13: a failing [getValidAccessToken] leaves no usable token behind.
    Whenever it throws, for whatever reason, the store it leaves holds no
    token that is valid at any time (an expired one was cleared, a new one was
    not written), while the stored credentials and configuration entries are
    untouched. *)
Theorem failure_leaves_no_token (h : Host) (w : World) (e : Error.t) :
  fst (getValidAccessToken h w) = Throw e ->
  (forall t token, ~ cache_holds (store (snd (getValidAccessToken h w))) t token)
  /\ store (snd (getValidAccessToken h w)) !! SSO_CREDENTIALS_KEY
     = store w !! SSO_CREDENTIALS_KEY
  /\ store (snd (getValidAccessToken h w)) !! GEMINI_CONFIG_KEY
     = store w !! GEMINI_CONFIG_KEY.
Proof.
  intros Hthrow.
  assert (Habsent : fst (getAccessToken h w) = Ok None).
  { destruct (fst (getAccessToken h w)) as [[token |] | e0] eqn:Hget; [| done |].
    - rewrite getAccessToken_run in Hget. cbn zeta in Hget.
      destruct (truthy (store w !! SSO_TOKEN_KEY)) eqn:Ht;
        [destruct (truthy (store w !! SSO_TOKEN_EXPIRY_KEY)) eqn:He |];
        cbn [negb orb] in Hget; [| done ..].
      destruct (number_ge _ _) eqn:Hge; [done |]. injection Hget as Hget.
      destruct (truthy_Some _ He) as (expiry & Hexpiry & Hne).
      rewrite Hexpiry in Hge. rewrite Hget in Ht.
      rewrite (getValidAccessToken_cached_run h w token) in Hthrow; [done |].
      split; [done |]. split; [done |]. by exists expiry.
    - rewrite getAccessToken_run in Hget. cbn zeta in Hget.
      destruct (negb _ || negb _); [done |]. by destruct (number_ge _ _). }
  destruct (getAccessToken_absent h w Habsent) as (Hgone & Hc & Hg & _).
  rewrite (getValidAccessToken_after_absent h w Habsent) in Hthrow |- *.
  cbn zeta in Hthrow |- *.
  destruct (stored_credentials h (store w)) as [| credentials | ec];
    destruct (stored_config h (store w)) as [| config | eg];
    cbn [fst snd store] in Hthrow |- *; try done.
  set (read2 := {| store := _; trace := _; ticks := _ |}) in *.
  pose proof (performSSOLogin_failure_store (ssoUrl config) credentials h read2) as Hkeep.
  destruct (performSSOLogin (ssoUrl config) credentials h read2) as [[tr | e1] w'];
    cbn [fst snd] in *; [done |].
  rewrite (Hkeep e1 eq_refl). subst read2. done.
Qed.

Lemma failure_leaves_no_token_witness :
  fst (getValidAccessToken offline_host (world_of expired_store))
    = Throw (new_Error (network_error_message "https://sso.example.com/login"))
  /\ ~ cache_holds
         (store (snd (getValidAccessToken offline_host (world_of expired_store))))
         0 "old"
  /\ store (snd (getValidAccessToken offline_host (world_of expired_store)))
       !! SSO_CREDENTIALS_KEY
     = Some alice_text.
Proof.
  split; [reflexivity |].
  destruct (failure_leaves_no_token offline_host (world_of expired_store)
              (new_Error (network_error_message "https://sso.example.com/login"))
              eq_refl) as (Hgone & Hkept & _).
  split; [apply Hgone | rewrite Hkept; reflexivity].
Defined.

(** X14: the orchestrator does not apply the presence check.  With both
    records stored but one of the four required fields empty,
    [isSSOConfigured] answers false, yet [getValidAccessToken], finding no
    valid token, still sends the login request built from those records. *)
Theorem presence_check_is_not_consulted (h : Host) (w : World)
    (credentials : SSOCredentials.t) (config : GeminiAPIConfig.t) :
  (forall token, ~ cache_holds (store w) (time_now h w) token) ->
  stored_credentials h (store w) = Present credentials ->
  stored_config h (store w) = Present config ->
  userid credentials = "" \/ password credentials = ""
  \/ ssoUrl config = "" \/ geminiApiUrl config = "" ->
  fst (isSSOConfigured h w) = Ok false
  /\ network_calls (trace (snd (getValidAccessToken h w)))
     = network_calls (trace w) ++ [(ssoUrl config, requestInit credentials)].
Proof.
  intros Hnone Hc Hg Hempty. split.
  - rewrite isSSOConfigured_run, Hc, Hg. cbn [fst]. f_equal.
    destruct Hempty as [-> | [-> | [-> | ->]]]; cbn [nonempty truthy];
      by rewrite ?andb_false_r.
  - pose proof (no_cache_reads_absent h w Hnone) as Habsent.
    destruct (getAccessToken_absent h w Habsent) as (_ & _ & _ & Hnet).
    rewrite (getValidAccessToken_after_absent h w Habsent), Hc, Hg. cbn zeta.
    set (read2 := {| store := _; trace := _; ticks := _ |}).
    pose proof (performSSOLogin_network_calls (ssoUrl config) credentials h read2)
      as Hcalls.
    destruct (performSSOLogin (ssoUrl config) credentials h read2) as [[tr | e] w'];
      cbn [snd] in *; rewrite Hcalls; subst read2; cbn [trace];
      by rewrite network_calls_app, app_nil_r, Hnet.
Qed.

Lemma presence_check_is_not_consulted_witness :
  fst (isSSOConfigured (host_knowing nameless vertex (Ok unauthorized))
         (world_of (store_knowing nameless)))
    = Ok false
  /\ length (network_calls
       (trace (snd (getValidAccessToken (host_knowing nameless vertex (Ok unauthorized))
                      (world_of (store_knowing nameless)))))) = 1%nat.
Proof.
  assert (Hnone : forall token,
            ~ cache_holds (store (world_of (store_knowing nameless)))
                (time_now (host_knowing nameless vertex (Ok unauthorized))
                   (world_of (store_knowing nameless))) token).
  { intros token (Htoken & _). vm_compute in Htoken. discriminate Htoken. }
  destruct (presence_check_is_not_consulted
              (host_knowing nameless vertex (Ok unauthorized))
              (world_of (store_knowing nameless)) nameless vertex
              Hnone eq_refl eq_refl (or_introl eq_refl)) as (Hcheck & Hcalls).
  split; [exact Hcheck | by rewrite Hcalls].
Defined.

(** X15: a store that passes the presence check never fails at the
    configuration step.  When [isSSOConfigured] answers true,
    [getValidAccessToken] either returns a cached token without any request,
    or sends exactly one login request, to the stored [ssoUrl] with the
    stored credentials. *)
Theorem configured_store_reaches_cache_or_network (h : Host) (w : World) :
  fst (isSSOConfigured h w) = Ok true ->
  (exists token,
     fst (getValidAccessToken h w) = Ok token
     /\ cache_holds (store w) (time_now h w) token
     /\ network_calls (trace (snd (getValidAccessToken h w))) = network_calls (trace w))
  \/ (exists credentials config,
        stored_credentials h (store w) = Present credentials
        /\ stored_config h (store w) = Present config
        /\ network_calls (trace (snd (getValidAccessToken h w)))
           = network_calls (trace w) ++ [(ssoUrl config, requestInit credentials)]).
Proof.
  intros Htrue.
  assert (Hrecords : exists credentials config,
            stored_credentials h (store w) = Present credentials
            /\ stored_config h (store w) = Present config).
  { rewrite isSSOConfigured_run in Htrue.
    destruct (stored_credentials h (store w)) as [| credentials | ec];
      destruct (stored_config h (store w)) as [| config | eg]; try done.
    by exists credentials, config. }
  destruct Hrecords as (credentials & config & Hc & Hg).
  destruct (fst (getAccessToken h w)) as [[token |] | e0] eqn:Hget.
  - left. exists token.
    assert (Hcache : cache_holds (store w) (time_now h w) token).
    { rewrite getAccessToken_run in Hget. cbn zeta in Hget.
      destruct (truthy (store w !! SSO_TOKEN_KEY)) eqn:Ht;
        [destruct (truthy (store w !! SSO_TOKEN_EXPIRY_KEY)) eqn:He |];
        cbn [negb orb] in Hget; [| done ..].
      destruct (number_ge _ _) eqn:Hge; [done |]. injection Hget as Hget.
      destruct (truthy_Some _ He) as (expiry & Hexpiry & Hne).
      rewrite Hexpiry in Hge. rewrite Hget in Ht.
      split; [done |]. split; [done |]. by exists expiry. }
    rewrite (getValidAccessToken_cached_run h w token Hcache). cbn [fst snd trace].
    split; [done |]. split; [done |]. by rewrite network_calls_app, app_nil_r.
  - right. exists credentials, config. split; [done |]. split; [done |].
    destruct (getAccessToken_absent h w Hget) as (_ & _ & _ & Hnet).
    rewrite (getValidAccessToken_after_absent h w Hget), Hc, Hg. cbn zeta.
    set (read2 := {| store := _; trace := _; ticks := _ |}).
    pose proof (performSSOLogin_network_calls (ssoUrl config) credentials h read2)
      as Hcalls.
    destruct (performSSOLogin (ssoUrl config) credentials h read2) as [[tr | e] w'];
      cbn [snd] in *; rewrite Hcalls; subst read2; cbn [trace];
      by rewrite network_calls_app, app_nil_r, Hnet.
  - rewrite getAccessToken_run in Hget. cbn zeta in Hget.
    destruct (negb _ || negb _); [done |]. by destruct (number_ge _ _).
Qed.

Lemma configured_store_reaches_cache_or_network_witness :
  fst (isSSOConfigured offline_host (world_of expired_store)) = Ok true
  /\ ((exists token,
         fst (getValidAccessToken offline_host (world_of expired_store)) = Ok token
         /\ cache_holds (store (world_of expired_store))
              (time_now offline_host (world_of expired_store)) token
         /\ network_calls
              (trace (snd (getValidAccessToken offline_host (world_of expired_store))))
            = network_calls (trace (world_of expired_store)))
      \/ (exists credentials config,
            stored_credentials offline_host (store (world_of expired_store))
              = Present credentials
            /\ stored_config offline_host (store (world_of expired_store))
               = Present config
            /\ network_calls
                 (trace (snd (getValidAccessToken offline_host (world_of expired_store))))
               = network_calls (trace (world_of expired_store))
                 ++ [(ssoUrl config, requestInit credentials)])).
Proof.
  split; [reflexivity |].
  apply (configured_store_reaches_cache_or_network offline_host
           (world_of expired_store)). reflexivity.
Defined.

Lemma getValidAccessToken_malformed_record_witness :
  fst (getValidAccessToken offline_host (world_of malformed_config_store))
    = Throw syntax_error
  /\ network_calls
       (trace (snd (getValidAccessToken offline_host (world_of malformed_config_store))))
     = [].
Proof.
  assert (Hnone : forall token,
            ~ cache_holds (store (world_of malformed_config_store))
                (time_now offline_host (world_of malformed_config_store)) token).
  { intros token (Htoken & _). vm_compute in Htoken. discriminate Htoken. }
  destruct (getValidAccessToken_malformed_record offline_host
              (world_of malformed_config_store) syntax_error Hnone
              (or_intror (conj I eq_refl))) as (Hr & Hcalls).
  split; [exact Hr | exact Hcalls].
Defined.

Lemma isSSOConfigured_malformed_record_witness :
  fst (isSSOConfigured offline_host (world_of malformed_config_store))
  = Throw syntax_error.
Proof.
  apply (isSSOConfigured_malformed_record offline_host
           (world_of malformed_config_store) syntax_error).
  right. split; [exact I | reflexivity].
Defined.
